(** * IEEE 738 conductor thermal model: a shallow embedding of [IEEE738.py]

    The Python module computes the heat balance of an overhead conductor:
    the steady-state rating, the steady-state temperature (a modified secant
    iteration) and the transient response (forward Euler).

    Python floats are idealised as real numbers ([R]): rounding, overflow,
    infinities and NaN are not modelled, and integers are [Z].  What is kept
    of the language is what decides the control flow of the program: the
    exceptions raised by [/], [math.sqrt], [math.asin], [math.acos],
    [datetime] and by the order comparison of complex numbers, the fact that
    the built-in [pow] answers a complex number for a negative base and a
    non-integral exponent, and the [try ... except] blocks that turn an
    exception into [0].  The [print] calls of the solver are left out.
    Loops that the source does not bound by a list take a [fuel] argument.

    Rounding is kept in the two places where its last bit is what the caller
    sees.  The quotient [time / dt] that [transient_conductor_temperature]
    truncates to a number of samples is the float quotient, not the exact
    one: the float division is a parameter [float_div] of that function, and
    the properties hold for every such division.  [conductor_heat_capacity],
    which only adds products of its arguments, is modelled over the binary64
    numbers themselves ([float]), with their addition and multiplication. *)

From Stdlib Require Import Floats.
From Stdlib Require Import Reals Lra Lia ZArith List Permutation Bool.
Import ListNotations.
Open Scope R_scope.

Set Warnings "-inexact-float".

(** ** Outcomes of a call *)

Inductive exn : Set := ZeroDivisionError | ValueError | TypeError | IndexError.

(** [OutOfFuel] is not a Python outcome: it marks a loop that is still
    running when the iteration budget given to the model is used up. *)
Inductive res (A : Type) : Type :=
| Ok (a : A)
| Raise (e : exn)
| OutOfFuel.

Arguments Ok {A} a.
Arguments Raise {A} e.
Arguments OutOfFuel {A}.

Definition bind {A B : Type} (m : res A) (k : A -> res B) : res B :=
  match m with
  | Ok a => k a
  | Raise e => Raise e
  | OutOfFuel => OutOfFuel
  end.

Notation "x <- m ;; k" := (bind m (fun x => k))
  (at level 61, m at next level, right associativity).

(** [try: body except: handler] with a bare [except]. *)
Definition try_except {A : Type} (body handler : res A) : res A :=
  match body with
  | Raise _ => handler
  | other => other
  end.

(** ** Numbers: floats and the complex numbers that [pow] can produce *)

Inductive num : Type :=
| Flt (x : R)
| Cpx (re im : R).

Definition re_part (a : num) : R :=
  match a with Flt x => x | Cpx re _ => re end.

Definition im_part (a : num) : R :=
  match a with Flt _ => 0 | Cpx _ im => im end.

Definition num_add (a b : num) : num :=
  match a, b with
  | Flt x, Flt y => Flt (x + y)
  | _, _ => Cpx (re_part a + re_part b) (im_part a + im_part b)
  end.

Definition num_sub (a b : num) : num :=
  match a, b with
  | Flt x, Flt y => Flt (x - y)
  | _, _ => Cpx (re_part a - re_part b) (im_part a - im_part b)
  end.

Definition num_mul (a b : num) : num :=
  match a, b with
  | Flt x, Flt y => Flt (x * y)
  | _, _ => Cpx (re_part a * re_part b - im_part a * im_part b)
                (re_part a * im_part b + im_part a * re_part b)
  end.

Definition Req_bool (x y : R) : bool := if Req_dec_T x y then true else false.
Definition Rlt_bool (x y : R) : bool := if Rlt_dec x y then true else false.
Definition Rle_bool (x y : R) : bool := if Rle_dec x y then true else false.

Definition num_is_zero (a : num) : bool :=
  Req_bool (re_part a) 0 && Req_bool (im_part a) 0.

(** True division: a zero divisor raises, for floats and for complex numbers. *)
Definition num_div (a b : num) : res num :=
  if num_is_zero b then Raise ZeroDivisionError
  else match a, b with
       | Flt x, Flt y => Ok (Flt (x / y))
       | _, _ =>
           let d := re_part b * re_part b + im_part b * im_part b in
           Ok (Cpx ((re_part a * re_part b + im_part a * im_part b) / d)
                   ((im_part a * re_part b - re_part a * im_part b) / d))
       end.

Definition py_div (x y : R) : res R :=
  if Req_bool y 0 then Raise ZeroDivisionError else Ok (x / y).

(** True division where the rounding of the quotient is kept: [float_div]
    maps the two operands to the float that [x / y] evaluates to. *)
Definition py_float_div (float_div : R -> R -> R) (x y : R) : res R :=
  if Req_bool y 0 then Raise ZeroDivisionError else Ok (float_div x y).

(** [atan2], used by the complex power. *)
Definition atan2 (y x : R) : R :=
  if Rlt_bool 0 x then atan (y / x)
  else if Rlt_bool x 0 then
         (if Rle_bool 0 y then atan (y / x) + PI else atan (y / x) - PI)
  else if Rlt_bool 0 y then PI / 2
  else if Rlt_bool y 0 then - (PI / 2)
  else 0.

(** The built-in [pow(x, y)] at a float exponent [y] that is not an integer
    (the exponents 0.5, 0.52, 0.6, 0.75, 1.25 and 1.5 of the module):
    a positive base gives a float, a zero base gives zero (and raises for a
    negative exponent), a negative or complex base gives the complex number
    [|x|^y * (cos (y * arg x) + i sin (y * arg x))]. *)
Definition pow_frac (x : num) (y : R) : res num :=
  match x with
  | Flt b =>
      if Req_bool b 0 then
        (if Rlt_bool y 0 then Raise ZeroDivisionError else Ok (Flt 0))
      else if Rlt_bool 0 b then Ok (Flt (Rpower b y))
      else Ok (Cpx (Rpower (- b) y * cos (PI * y)) (Rpower (- b) y * sin (PI * y)))
  | Cpx a b =>
      if num_is_zero x then
        (if Rlt_bool y 0 then Raise ZeroDivisionError else Ok (Cpx 0 0))
      else
        let len := Rpower (sqrt (a * a + b * b)) y in
        let phase := atan2 b a * y in
        Ok (Cpx (len * cos phase) (len * sin phase))
  end.

(** [x > y]: the order is not defined on complex numbers. *)
Definition num_gt (a b : num) : res bool :=
  match a, b with
  | Flt x, Flt y => Ok (Rlt_bool y x)
  | _, _ => Raise TypeError
  end.

(** [max(a, b)]: keeps [a] unless [b > a].  The comparison succeeds on two
    floats only, so the value returned is a float. *)
Definition py_max (a b : num) : res R :=
  c <- num_gt b a ;;
  match c, a, b with
  | true, _, Flt y => Ok y
  | false, Flt x, _ => Ok x
  | _, _, _ => Raise TypeError
  end.

(** [math.sqrt], [math.asin], [math.acos]: real arguments only, and a
    [ValueError] outside the domain. *)
Definition math_sqrt (a : num) : res R :=
  match a with
  | Flt x => if Rlt_bool x 0 then Raise ValueError else Ok (sqrt x)
  | Cpx _ _ => Raise TypeError
  end.

Definition math_asin (x : R) : res R :=
  if Rlt_bool x (-1) || Rlt_bool 1 x then Raise ValueError else Ok (asin x).

Definition math_acos (x : R) : res R :=
  if Rlt_bool x (-1) || Rlt_bool 1 x then Raise ValueError else Ok (acos x).

Definition radians (x : R) : R := x * PI / 180.
Definition degrees (x : R) : R := x * 180 / PI.

(** ** Convection heat loss *)

Definition temperature_boundary_layer (T_s T_a : R) : R := (T_s + T_a) / 2.

Definition air_density (H_e T_film : R) : res R :=
  py_div (1.293 - 1.525e-4 * H_e + 6.379e-9 * H_e ^ 2) (1 + 0.00367 * T_film).

Definition air_viscosity (T_film : R) : res num :=
  p <- pow_frac (Flt (T_film + 273)) 1.5 ;;
  num_div (num_mul (Flt 1.458e-6) p) (Flt (T_film + 383.4)).

Definition air_thermal_conductivity_coefficient (T_film : R) : R :=
  2.424e-2 + 7.477e-5 * T_film - 4.407e-9 * T_film ^ 2.

Definition wind_direction_factor (phi : R) : R :=
  1.194 - cos (radians phi) + 0.194 * cos (radians (2 * phi))
  + 0.368 * sin (radians (2 * phi)).

Definition reynolds_number (D_o rho_f V_w : R) (mu_f : num) : res num :=
  num_div (Flt (D_o * rho_f * V_w)) mu_f.

Definition natural_convection_heat_loss (rho_f D_o T_s T_a : R) : res num :=
  p1 <- pow_frac (Flt rho_f) 0.5 ;;
  p2 <- pow_frac (Flt D_o) 0.75 ;;
  p3 <- pow_frac (Flt (T_s - T_a)) 1.25 ;;
  Ok (num_mul (num_mul (num_mul (Flt 3.645) p1) p2) p3).

Definition forced_convection_heat_loss (K_angle : R) (N_Re : num) (k_f T_s T_a : R)
  : res R :=
  p1 <- pow_frac N_Re 0.52 ;;
  let q_cf1 :=
    num_mul (num_mul (num_mul (Flt K_angle)
                               (num_add (Flt 1.01) (num_mul (Flt 1.35) p1)))
                     (Flt k_f))
            (Flt (T_s - T_a)) in
  p2 <- pow_frac N_Re 0.6 ;;
  let q_cf2 :=
    num_mul (num_mul (num_mul (num_mul (Flt K_angle) (Flt 0.754)) p2) (Flt k_f))
            (Flt (T_s - T_a)) in
  try_except (py_max q_cf1 q_cf2) (Ok 0).

Definition convection_heat_loss (T_s T_a H_e D_o phi V_w : R) : res R :=
  let T_film := temperature_boundary_layer T_s T_a in
  rho_f <- air_density H_e T_film ;;
  mu_f <- air_viscosity T_film ;;
  let k_f := air_thermal_conductivity_coefficient T_film in
  q_cn <- natural_convection_heat_loss rho_f D_o T_s T_a ;;
  let K_angle := wind_direction_factor phi in
  N_Re <- reynolds_number D_o rho_f V_w mu_f ;;
  q_cf <- forced_convection_heat_loss K_angle N_Re k_f T_s T_a ;;
  try_except (py_max (Flt q_cf) q_cn) (Ok 0).

(** ** Radiated heat loss and conductor resistance *)

Definition radiated_heat_loss (D_o epsilon T_s T_a : R) : R :=
  17.8 * D_o * epsilon * (((T_s + 273) / 100) ^ 4 - ((T_a + 273) / 100) ^ 4).

Definition conductor_electrical_resistance (R_0 T_0 alpha_T T_avg : R) : R :=
  R_0 * (1 + alpha_T * (T_avg - T_0)).

(** ** Steady-state thermal rating *)

Definition steady_state_thermal_rating (q_c q_r q_s R_T_avg : R) : res R :=
  try_except
    (x <- py_div (q_c + q_r - q_s) R_T_avg ;; math_sqrt (Flt x))
    (Ok 0).

(** ** Calendar: [datetime(year, month, day)] and the difference of two dates

    The proleptic Gregorian ordinal of the [datetime] module. *)

Open Scope Z_scope.

Record datetime : Set := mk_datetime { dt_year : Z; dt_month : Z; dt_day : Z }.

Definition is_leap (year : Z) : bool :=
  (year mod 4 =? 0) && (negb (year mod 100 =? 0) || (year mod 400 =? 0)).

Definition days_before_year (year : Z) : Z :=
  let y := year - 1 in
  y * 365 + y / 4 - y / 100 + y / 400.

Definition DAYS_IN_MONTH (month : Z) : Z :=
  match month with
  | 1 => 31 | 2 => 28 | 3 => 31 | 4 => 30 | 5 => 31 | 6 => 30
  | 7 => 31 | 8 => 31 | 9 => 30 | 10 => 31 | 11 => 30 | 12 => 31
  | _ => -1
  end.

Definition DAYS_BEFORE_MONTH (month : Z) : Z :=
  match month with
  | 1 => 0 | 2 => 31 | 3 => 59 | 4 => 90 | 5 => 120 | 6 => 151
  | 7 => 181 | 8 => 212 | 9 => 243 | 10 => 273 | 11 => 304 | 12 => 334
  | _ => -1
  end.

Definition days_in_month (year month : Z) : Z :=
  if (month =? 2) && is_leap year then 29 else DAYS_IN_MONTH month.

Definition days_before_month (year month : Z) : Z :=
  DAYS_BEFORE_MONTH month + (if (2 <? month) && is_leap year then 1 else 0).

Definition ymd2ord (year month day : Z) : Z :=
  days_before_year year + days_before_month year month + day.

Definition valid_date (year month day : Z) : bool :=
  (1 <=? year) && (year <=? 9999) && (1 <=? month) && (month <=? 12)
  && (1 <=? day) && (day <=? days_in_month year month).

(** The constructor refuses a date that is not in the calendar. *)
Definition new_datetime (year month day : Z) : res datetime :=
  if valid_date year month day then Ok (mk_datetime year month day)
  else Raise ValueError.

Definition toordinal (date : datetime) : Z :=
  ymd2ord (dt_year date) (dt_month date) (dt_day date).

(** [(a - b).days] for two dates at midnight. *)
Definition timedelta_days (a b : datetime) : Z := toordinal a - toordinal b.

Definition day_of_year (date : datetime) : res Z :=
  jan1 <- new_datetime (dt_year date) 1 1 ;;
  Ok (timedelta_days date jan1).

Open Scope R_scope.

(** ** Solar heat gain *)

Definition elevation_correction_factor (H_e : R) : R :=
  let '(A, B, C) := (1, 1.148e-4, -1.108e-8) in
  A + B * H_e + C * H_e ^ 2.

Definition solar_declination (N : Z) : R :=
  23.46 * sin (radians ((284 + IZR N) * 360 / 365)).

Definition hour_angle (hour : R) : R := 15 * (hour - 12).

Definition altitude_sun (lat delta omega : R) : res R :=
  a <- math_asin (cos (radians lat) * cos (radians delta) * cos (radians omega)
                  + sin (radians lat) * sin (radians delta)) ;;
  let H_c := degrees a in
  Ok (if Rlt_bool H_c 0 then 0 else H_c).

Definition total_heat_flux_density (H_c : R) (industrial_atmosphere : bool) : R :=
  let '(A, B, C, D, E, F, G) :=
    if industrial_atmosphere
    then (53.1821, 14.2110, 6.6138e-1, -3.1658e-2, 5.4654e-4, 4.3446e-6, 1.3236e-8)
    else (-42.2391, 63.8044, -1.9220, 3.46921e-2, -3.61118e-4, 1.94318e-6,
          -4.07608e-9) in
  A + B * H_c + C * H_c ^ 2 + D * H_c ^ 3 + E * H_c ^ 4 + F * H_c ^ 5
  + G * H_c ^ 6.

Definition total_heat_flux_intensity (K_solar Q_s : R) : R := K_solar * Q_s.

Definition azimuth_variable (omega lat delta : R) : res R :=
  py_div (sin (radians omega))
         (sin (radians lat) * cos (radians omega)
          - cos (radians lat) * tan (radians delta)).

Definition azimuth_constant (omega ji : R) : R :=
  if Rle_bool (-180) omega && Rlt_bool omega 0 && Rle_bool 0 ji then 0
  else if Rle_bool 0 omega && Rlt_bool omega 180 && Rlt_bool ji 0 then 360
  else 180.

Definition azimuth (C ji : R) : R := C + degrees (atan ji).

Definition solar_rays_incidence_angle (H_c Z_c Z_l : R) : res R :=
  a <- math_acos (cos (radians H_c) * cos (radians (Z_c - Z_l))) ;;
  Ok (degrees a).

Definition solar_heat_gain (year month day : Z) (hour H_e lat : R)
  (industrial_atmosphere : bool) (Z_l D_o alpha : R) : res R :=
  date <- new_datetime year month day ;;
  let K_solar := elevation_correction_factor H_e in
  N <- day_of_year date ;;
  let delta := solar_declination N in
  let omega := hour_angle hour in
  H_c <- altitude_sun lat delta omega ;;
  let Q_s := total_heat_flux_density H_c industrial_atmosphere in
  let Q_se := total_heat_flux_intensity K_solar Q_s in
  ji <- azimuth_variable omega lat delta ;;
  let C := azimuth_constant omega ji in
  let Z_c := azimuth C ji in
  theta <- solar_rays_incidence_angle H_c Z_c Z_l ;;
  let A := D_o in
  let q_s := alpha * Q_se * sin (radians theta) * A in
  Ok (if Rlt_bool q_s 0 then 0 else q_s).

(** [ss_thermal_rating]: the rating at the maximum conductor temperature. *)
Definition ss_thermal_rating (V_w phi epsilon alpha T_a T_max D_o R_0 T_0 alpha_T
  Z_l lat : R) (industrial_atmosphere : bool) (year month day : Z) (hour H_e : R)
  : res R :=
  q_c <- convection_heat_loss T_max T_a H_e D_o phi V_w ;;
  let q_r := radiated_heat_loss D_o epsilon T_max T_a in
  q_s <- solar_heat_gain year month day hour H_e lat industrial_atmosphere Z_l D_o
           alpha ;;
  let R_T_avg := conductor_electrical_resistance R_0 T_0 alpha_T T_max in
  steady_state_thermal_rating q_c q_r q_s R_T_avg.

(** ** Steady-state conductor temperature: the modified secant iteration *)

(** The variables of the [while True] loop that live across iterations. *)
Record secant_state : Type :=
  mk_secant_state { st_T_i : R; st_ea : R; st_i : Z }.

(** One pass through the body of the loop, up to the exit test. *)
Definition secant_body (I_ss V_w phi epsilon T_a D_o R_0 T_0 alpha_T H_e q_s : R)
  (st : secant_state) : res secant_state :=
  let delta := 0.1 in
  let i := (st_i st + 1)%Z in
  let T_i := st_T_i st in
  let T_i2 := T_i * (1 + delta) in
  let R_T_i := conductor_electrical_resistance R_0 T_0 alpha_T T_i in
  let R_T_i2 := conductor_electrical_resistance R_0 T_0 alpha_T T_i2 in
  q_ci <- convection_heat_loss T_i T_a H_e D_o phi V_w ;;
  q_ci2 <- convection_heat_loss T_i2 T_a H_e D_o phi V_w ;;
  let q_ri := radiated_heat_loss D_o epsilon T_i T_a in
  let q_ri2 := radiated_heat_loss D_o epsilon T_i2 T_a in
  I_i <- steady_state_thermal_rating q_ci q_ri q_s R_T_i ;;
  let f_i := I_i - I_ss in
  I_i2 <- steady_state_thermal_rating q_ci2 q_ri2 q_s R_T_i2 ;;
  let f_i2 := I_i2 - I_ss in
  let T_iold := T_i in
  let T_i :=
    if negb (Req_bool (f_i2 - f_i) 0)
    then T_i - ((delta * T_i * f_i) / (f_i2 - f_i))
    else T_i in
  let ea :=
    if negb (Req_bool T_i 0)
    then Rabs ((T_i - T_iold) / T_i) * 100
    else st_ea st in
  Ok (mk_secant_state T_i ea i).

(** [ea <= es or i >= imax] *)
Definition secant_exit (es : R) (imax : Z) (st : secant_state) : bool :=
  Rle_bool (st_ea st) es || (imax <=? st_i st)%Z.

Fixpoint secant_loop (fuel : nat)
  (I_ss V_w phi epsilon T_a D_o R_0 T_0 alpha_T H_e q_s es : R) (imax : Z)
  (st : secant_state) : res R :=
  match fuel with
  | O => OutOfFuel
  | S fuel' =>
      st' <- secant_body I_ss V_w phi epsilon T_a D_o R_0 T_0 alpha_T H_e q_s st ;;
      if secant_exit es imax st' then Ok (st_T_i st')
      else secant_loop fuel' I_ss V_w phi epsilon T_a D_o R_0 T_0 alpha_T H_e q_s
             es imax st'
  end.

Definition secant_init (T_a : R) : secant_state :=
  mk_secant_state (T_a + 5) 100 0.

Definition steady_state_conductor_temperature (fuel : nat)
  (I_ss V_w phi epsilon alpha T_a D_o R_0 T_0 alpha_T Z_l lat : R)
  (industrial_atmosphere : bool) (year month day : Z) (hour H_e es : R) (imax : Z)
  : res R :=
  q_s <- solar_heat_gain year month day hour H_e lat industrial_atmosphere Z_l D_o
           alpha ;;
  secant_loop fuel I_ss V_w phi epsilon T_a D_o R_0 T_0 alpha_T H_e q_s es imax
    (secant_init T_a).

(** ** Transient response *)

Definition delta_T (R_T_avg I q_s q_c q_r mC_p dt : R) : res R :=
  x <- py_div (R_T_avg * I ^ 2 + q_s - q_c - q_r) mC_p ;;
  Ok (x * dt).

Definition delta_t (R_T_avg I q_s q_c q_r mC_p dT : R) : res R :=
  x <- py_div mC_p (R_T_avg * I ^ 2 + q_s - q_c - q_r) ;;
  Ok (x * dT).

(** [int(trunc(x))]: rounding towards zero. *)
Definition int_trunc (x : R) : Z :=
  if Rle_bool 0 x then Int_part x else (- Int_part (- x))%Z.

(** [T[-1]] *)
Definition list_last (T : list R) : res R :=
  match rev T with
  | [] => Raise IndexError
  | x :: _ => Ok x
  end.

(** The [for delta_t in nt] loop; [T] is the list being appended to. *)
Fixpoint euler_loop (I_f mC_p V_w phi epsilon T_a D_o R_0 T_0 alpha_T H_e q_s : R)
  (nt : list R) (T : list R) : res (list R) :=
  match nt with
  | [] => Ok T
  | delta_t :: nt' =>
      T_last <- list_last T ;;
      let R_T_i := conductor_electrical_resistance R_0 T_0 alpha_T T_last in
      q_c_i <- convection_heat_loss T_last T_a H_e D_o phi V_w ;;
      let q_r_i := radiated_heat_loss D_o epsilon T_last T_a in
      dT <- delta_T R_T_i I_f q_s q_c_i q_r_i mC_p delta_t ;;
      euler_loop I_f mC_p V_w phi epsilon T_a D_o R_0 T_0 alpha_T H_e q_s nt'
        (T ++ [T_last + dT])
  end.

Definition transient_conductor_temperature (float_div : R -> R -> R) (fuel : nat)
  (I_i I_f dt time mC_p V_w phi epsilon alpha T_a D_o R_0 T_0 alpha_T Z_l lat : R)
  (industrial_atmosphere : bool) (year month day : Z) (hour H_e es : R) (imax : Z)
  : res (list R) :=
  T_i <- steady_state_conductor_temperature fuel I_i V_w phi epsilon alpha T_a D_o
           R_0 T_0 alpha_T Z_l lat industrial_atmosphere year month day hour H_e
           es imax ;;
  q_s <- solar_heat_gain year month day hour H_e lat industrial_atmosphere Z_l D_o
           alpha ;;
  let T := [T_i] in
  q <- py_float_div float_div time dt ;;
  let n := int_trunc q in
  let nt := repeat dt (Z.to_nat n) in
  euler_loop I_f mC_p V_w phi epsilon T_a D_o R_0 T_0 alpha_T H_e q_s nt T.

(** The [while T <= T_f] loop: the guard is tested first; one unit of fuel
    pays for one pass through the body. *)
Fixpoint settling_loop (fuel : nat)
  (I_f dT mC_p V_w phi epsilon T_a D_o R_0 T_0 alpha_T H_e q_s T_f : R)
  (T Time : R) : res R :=
  if Rle_bool T T_f then
    match fuel with
    | O => OutOfFuel
    | S fuel' =>
        let R_T_i := conductor_electrical_resistance R_0 T_0 alpha_T T in
        q_c_i <- convection_heat_loss T T_a H_e D_o phi V_w ;;
        let q_r_i := radiated_heat_loss D_o epsilon T T_a in
        dt <- delta_t R_T_i I_f q_s q_c_i q_r_i mC_p dT ;;
        settling_loop fuel' I_f dT mC_p V_w phi epsilon T_a D_o R_0 T_0 alpha_T H_e
          q_s T_f (T + dT) (Time + dt)
    end
  else Ok Time.

Definition transient_settling_time (fuel : nat)
  (I_i I_f dT mC_p V_w phi epsilon alpha T_a D_o R_0 T_0 alpha_T Z_l lat : R)
  (industrial_atmosphere : bool) (year month day : Z) (hour H_e es : R) (imax : Z)
  : res R :=
  T_i <- steady_state_conductor_temperature fuel I_i V_w phi epsilon alpha T_a D_o
           R_0 T_0 alpha_T Z_l lat industrial_atmosphere year month day hour H_e
           es imax ;;
  T_f <- steady_state_conductor_temperature fuel I_f V_w phi epsilon alpha T_a D_o
           R_0 T_0 alpha_T Z_l lat industrial_atmosphere year month day hour H_e
           es imax ;;
  q_s <- solar_heat_gain year month day hour H_e lat industrial_atmosphere Z_l D_o
           alpha ;;
  settling_loop fuel I_f dT mC_p V_w phi epsilon T_a D_o R_0 T_0 alpha_T H_e q_s
    T_f T_i 0.

(** ** Conductor heat capacity *)

(** The masses and the specific heats are floats; [mC_p] starts as the
    integer [0], which the first [+=] turns into a float. *)
Definition conductor_heat_capacity (m_i C_pi : list float) : float :=
  let m_iC_pi := combine m_i C_pi in
  fold_left (fun mC_p mC => (mC_p + fst mC * snd mC)%float) m_iC_pi 0%float.

(** * Notions used to state the properties *)

(** A call written without a loop never runs out of fuel. *)
Definition finishes {A : Type} (m : res A) : Prop := m <> OutOfFuel.

(** The elementwise products added one after the other onto [acc], from the
    first pair to the last, written by recursion on the lists. *)
Fixpoint products_added_to (acc : float) (m_i C_pi : list float) : float :=
  match m_i, C_pi with
  | m :: m_i', C :: C_pi' => products_added_to (acc + m * C)%float m_i' C_pi'
  | _, _ => acc
  end.

Open Scope Z_scope.

(** The day after [date] in the calendar. *)
Definition next_day (date : datetime) : datetime :=
  let '(mk_datetime y m d) := date in
  if d <? days_in_month y m then mk_datetime y m (d + 1)
  else if m <? 12 then mk_datetime y (m + 1) 1
  else mk_datetime (y + 1) 1 1.

(** The date [n] whole days after [date]. *)
Definition days_later (n : nat) (date : datetime) : datetime :=
  Nat.iter n next_day date.

(** The days in the first [k] months of the year. *)
Definition days_of_months_before (year : Z) (k : nat) : Z :=
  fold_right Z.add 0 (map (days_in_month year) (map Z.of_nat (seq 1 k))).

(** The conventional day number, counted from 1 on January 1: the lengths of
    the months that are over, plus the day of the month. *)
Definition conventional_day_number (year month day : Z) : Z :=
  days_of_months_before year (Z.to_nat month - 1) + day.

(** The part of [solar_heat_gain] that follows the computation of the day
    number [N]. *)
Definition solar_heat_gain_on_day (N : Z) (hour H_e lat : R)
  (industrial_atmosphere : bool) (Z_l D_o alpha : R) : res R :=
  let K_solar := elevation_correction_factor H_e in
  let delta := solar_declination N in
  let omega := hour_angle hour in
  H_c <- altitude_sun lat delta omega ;;
  let Q_s := total_heat_flux_density H_c industrial_atmosphere in
  let Q_se := total_heat_flux_intensity K_solar Q_s in
  ji <- azimuth_variable omega lat delta ;;
  let C := azimuth_constant omega ji in
  let Z_c := azimuth C ji in
  theta <- solar_rays_incidence_angle H_c Z_c Z_l ;;
  let A := D_o in
  let q_s := (alpha * Q_se * sin (radians theta) * A)%R in
  Ok (if Rlt_bool q_s 0 then 0%R else q_s).

Open Scope R_scope.

Section SecantNotions.

Variables I_ss V_w phi epsilon T_a D_o R_0 T_0 alpha_T H_e q_s es : R.
Variable imax : Z.

(** The residual [f(T) = rating(...) - I_ss] at a trial temperature. *)
Definition residual (T : R) : res R :=
  q_c <- convection_heat_loss T T_a H_e D_o phi V_w ;;
  I <- steady_state_thermal_rating q_c (radiated_heat_loss D_o epsilon T T_a) q_s
         (conductor_electrical_resistance R_0 T_0 alpha_T T) ;;
  Ok (I - I_ss).

(** The loop variables after [n] passes through the body, from [st]. *)
Fixpoint secant_passes (n : nat) (st : secant_state) : res secant_state :=
  match n with
  | O => Ok st
  | S k =>
      st' <- secant_body I_ss V_w phi epsilon T_a D_o R_0 T_0 alpha_T H_e q_s st ;;
      secant_passes k st'
  end.

(** The exit test, as a proposition. *)
Definition stops_at (st : secant_state) : Prop :=
  st_ea st <= es \/ (imax <= st_i st)%Z.

(** One secant update of the trial temperature: the residual is evaluated at
    [T] and at [T * (1 + 0.1)], and the trial moves to [T_new]. *)
Definition secant_update (T T_new : R) : Prop :=
  exists f f',
    residual T = Ok f
    /\ residual (T * (1 + 0.1)) = Ok f'
    /\ (f' - f = 0 -> T_new = T)
    /\ (f' - f <> 0 -> T_new = T - (0.1 * T * f) / (f' - f)).

(** [n] successive updates lead from the trial [T] to the trial [T']. *)
Inductive secant_updates : nat -> R -> R -> Prop :=
| secant_updates_none (T : R) : secant_updates 0 T T
| secant_updates_step (n : nat) (T T_1 T' : R) :
    secant_update T T_1 -> secant_updates n T_1 T' -> secant_updates (S n) T T'.

(** The pass that starts at the trial [T] raises [e]: one of its two
    residuals does. *)
Definition secant_pass_raises (T : R) (e : exn) : Prop :=
  residual T = Raise e
  \/ ((exists f, residual T = Ok f) /\ residual (T * (1 + 0.1)) = Raise e).

End SecantNotions.

Section TrajectoryNotions.

Variables I_f dt mC_p V_w phi epsilon T_a D_o R_0 T_0 alpha_T H_e q_s : R.

(** One forward-Euler step from the temperature [T_k] to [T_next]. *)
Definition euler_increment (T_k T_next : R) : Prop :=
  exists q_c,
    convection_heat_loss T_k T_a H_e D_o phi V_w = Ok q_c
    /\ T_next
       = T_k
         + (conductor_electrical_resistance R_0 T_0 alpha_T T_k * I_f ^ 2 + q_s
            - q_c - radiated_heat_loss D_o epsilon T_k T_a) / mC_p * dt.

(** Every element of [l] follows from the one before it, starting at [x]. *)
Fixpoint euler_chain (x : R) (l : list R) : Prop :=
  match l with
  | [] => True
  | y :: l' => euler_increment x y /\ euler_chain y l'
  end.

(** [T] is the forward-Euler trajectory of [n] steps that starts at [T_i]:
    [n + 1] temperatures, the first one [T_i], the one at index [k + 1] one
    increment after the one at index [k]. *)
Definition euler_trajectory (n : nat) (T_i : R) (T : list R) : Prop :=
  length T = (n + 1)%nat
  /\ nth 0 T 0 = T_i
  /\ forall k, (S k < length T)%nat -> euler_increment (nth k T 0) (nth (S k) T 0).

End TrajectoryNotions.

(** * Properties *)

(** ** Deciding the comparisons *)

Lemma Rlt_bool_true (x y : R) : x < y -> Rlt_bool x y = true.
Proof.
  intros H. unfold Rlt_bool.
  destruct (Rlt_dec x y); [reflexivity | contradiction].
Qed.

Lemma Rlt_bool_false (x y : R) : ~ x < y -> Rlt_bool x y = false.
Proof.
  intros H. unfold Rlt_bool.
  destruct (Rlt_dec x y); [contradiction | reflexivity].
Qed.

Lemma Rle_bool_true (x y : R) : x <= y -> Rle_bool x y = true.
Proof.
  intros H. unfold Rle_bool.
  destruct (Rle_dec x y); [reflexivity | contradiction].
Qed.

Lemma Rle_bool_false (x y : R) : ~ x <= y -> Rle_bool x y = false.
Proof.
  intros H. unfold Rle_bool.
  destruct (Rle_dec x y); [contradiction | reflexivity].
Qed.

Lemma Req_bool_true (x y : R) : x = y -> Req_bool x y = true.
Proof.
  intros H. unfold Req_bool.
  destruct (Req_dec_T x y); [reflexivity | contradiction].
Qed.

Lemma Req_bool_false (x y : R) : x <> y -> Req_bool x y = false.
Proof.
  intros H. unfold Req_bool.
  destruct (Req_dec_T x y); [contradiction | reflexivity].
Qed.

Lemma Rlt_bool_spec (x y : R) : reflect (x < y) (Rlt_bool x y).
Proof. unfold Rlt_bool. destruct (Rlt_dec x y); constructor; assumption. Qed.

Lemma Rle_bool_spec (x y : R) : reflect (x <= y) (Rle_bool x y).
Proof. unfold Rle_bool. destruct (Rle_dec x y); constructor; assumption. Qed.

Lemma Req_bool_spec (x y : R) : reflect (x = y) (Req_bool x y).
Proof. unfold Req_bool. destruct (Req_dec_T x y); constructor; assumption. Qed.

(** Rewrites a comparison whose answer [lra] can find. *)
Ltac Rbool :=
  repeat match goal with
    | |- context [Rlt_bool ?x ?y] =>
        first [ rewrite (Rlt_bool_true x y) by lra
              | rewrite (Rlt_bool_false x y) by lra ]
    | |- context [Rle_bool ?x ?y] =>
        first [ rewrite (Rle_bool_true x y) by lra
              | rewrite (Rle_bool_false x y) by lra ]
    | |- context [Req_bool ?x ?y] =>
        first [ rewrite (Req_bool_true x y) by lra
              | rewrite (Req_bool_false x y) by lra ]
    end.

(** ** Steady-state thermal rating *)

Lemma steady_state_thermal_rating_total (q_c q_r q_s R_T_avg : R) :
  exists I, steady_state_thermal_rating q_c q_r q_s R_T_avg = Ok I.
Proof.
  unfold steady_state_thermal_rating, py_div, math_sqrt.
  destruct (Req_bool R_T_avg 0); cbn; [eexists; reflexivity |].
  destruct (Rlt_bool ((q_c + q_r - q_s) / R_T_avg) 0); cbn; eexists; reflexivity.
Qed.

(** C3. [steady_state_thermal_rating] never raises: it answers [0] when the
    resistance is zero or the radicand [(q_c + q_r - q_s) / R_T_avg] is
    negative, and the square root of the radicand otherwise. *)
Theorem steady_state_thermal_rating_fails_closed (q_c q_r q_s R_T_avg : R) :
  (exists I, steady_state_thermal_rating q_c q_r q_s R_T_avg = Ok I)
  /\ (R_T_avg = 0 \/ (q_c + q_r - q_s) / R_T_avg < 0 ->
      steady_state_thermal_rating q_c q_r q_s R_T_avg = Ok 0)
  /\ (R_T_avg <> 0 /\ 0 <= (q_c + q_r - q_s) / R_T_avg ->
      steady_state_thermal_rating q_c q_r q_s R_T_avg
      = Ok (sqrt ((q_c + q_r - q_s) / R_T_avg))).
Proof.
  unfold steady_state_thermal_rating, py_div, math_sqrt.
  destruct (Req_bool_spec R_T_avg 0) as [Hz | Hnz]; cbn.
  - split; [eexists; reflexivity | split].
    + reflexivity.
    + intros [H _]. contradiction.
  - destruct (Rlt_bool_spec ((q_c + q_r - q_s) / R_T_avg) 0) as [Hneg | Hpos]; cbn.
    + split; [eexists; reflexivity | split].
      * reflexivity.
      * intros [_ H]. lra.
    + split; [eexists; reflexivity | split].
      * intros [H | H]; [contradiction | lra].
      * reflexivity.
Qed.

(** ** Conductor heat capacity *)

Lemma heat_capacity_fold (m_i C_pi : list float) :
  forall acc : float,
    fold_left (fun mC_p mC => (mC_p + fst mC * snd mC)%float) (combine m_i C_pi) acc
    = products_added_to acc m_i C_pi.
Proof.
  revert C_pi. induction m_i as [| m m_i IH]; intros [| C C_pi] acc; try reflexivity.
  cbn [combine fold_left products_added_to fst snd]. apply IH.
Qed.

Lemma heat_capacity_products (m_i C_pi : list float) :
  conductor_heat_capacity m_i C_pi = products_added_to 0%float m_i C_pi.
Proof. unfold conductor_heat_capacity. apply heat_capacity_fold. Qed.

(** Two facts of binary64 addition.  Adding [a] and [b] onto 0 in either
    order gives the same float. *)
Lemma float_add_onto_zero_swap (a b : float) : (0 + a + b = 0 + b + a)%float.
Proof.
  apply Prim2SF_inj. rewrite !add_spec.
  change (Prim2SF 0%float) with (S754_zero false).
  destruct (Prim2SF a) as [[|] | [|] | | sa ma ea],
    (Prim2SF b) as [[|] | [|] | | sb mb eb]; try reflexivity.
  unfold SF64add, SFadd. rewrite (Z.min_comm eb ea), Z.add_comm. reflexivity.
Qed.

(** Starting from 0 changes the sum of [a] and [b] only when both are the
    negative zero: the sum is then [-0.0] and the accumulated value [0.0],
    which [==] does not tell apart. *)
Lemma float_add_onto_zero (a b : float) :
  (0 + a + b = a + b)%float
  \/ ((0 + a + b)%float = 0%float /\ (a + b)%float = neg_zero).
Proof.
  destruct (Prim2SF a) as [[|] | [|] | | sa ma ea] eqn:Ha,
    (Prim2SF b) as [[|] | [|] | | sb mb eb] eqn:Hb;
    try (left; apply Prim2SF_inj; rewrite !add_spec, Ha, Hb;
         change (Prim2SF 0%float) with (S754_zero false); reflexivity).
  right. split; apply Prim2SF_inj; rewrite !add_spec, ?Ha, ?Hb; reflexivity.
Qed.

(** C8, as the code has it. [conductor_heat_capacity] adds the elementwise
    products in binary64 from the first pair to the last, starting at 0.  On
    two layers the result is [m1*c1 + m2*c2] (with [0.0] in place of [-0.0]
    when both products are the negative zero), and exchanging the first two
    layers of a conductor never changes the result. *)
Theorem conductor_heat_capacity_additive (m_i C_pi : list float) (m1 m2 c1 c2 : float) :
  conductor_heat_capacity m_i C_pi = products_added_to 0%float m_i C_pi
  /\ (conductor_heat_capacity [m1; m2] [c1; c2] = (m1 * c1 + m2 * c2)%float
      \/ (conductor_heat_capacity [m1; m2] [c1; c2] = 0%float
          /\ (m1 * c1 + m2 * c2)%float = neg_zero))
  /\ conductor_heat_capacity (m1 :: m2 :: m_i) (c1 :: c2 :: C_pi)
     = conductor_heat_capacity (m2 :: m1 :: m_i) (c2 :: c1 :: C_pi).
Proof.
  split; [apply heat_capacity_products | split].
  - exact (float_add_onto_zero (m1 * c1) (m2 * c2)).
  - unfold conductor_heat_capacity.
    cbn [combine fold_left fst snd]. rewrite float_add_onto_zero_swap. reflexivity.
Qed.

(** C8 fails on three layers: the same three (mass, specific heat) pairs in
    the opposite order give a capacity that differs in the last bit. *)
Lemma conductor_heat_capacity_order_matters :
  Permutation (combine [0.1; 0.2; 0.3] [1; 1; 1])%float
    (combine [0.3; 0.2; 0.1] [1; 1; 1])%float
  /\ conductor_heat_capacity [0.1; 0.2; 0.3]%float [1; 1; 1]%float
     = 0.6000000000000001%float
  /\ conductor_heat_capacity [0.3; 0.2; 0.1]%float [1; 1; 1]%float = 0.6%float
  /\ conductor_heat_capacity [0.1; 0.2; 0.3]%float [1; 1; 1]%float
     <> conductor_heat_capacity [0.3; 0.2; 0.1]%float [1; 1; 1]%float.
Proof.
  split; [| split; [| split]].
  - exact (Permutation_rev [(0.1, 1); (0.2, 1); (0.3, 1)]%float).
  - vm_compute. reflexivity.
  - vm_compute. reflexivity.
  - vm_compute. discriminate.
Qed.

(** ** Day of the year *)

Open Scope Z_scope.

Lemma days_later_add (n k : nat) (date : datetime) :
  days_later (n + k) date = days_later k (days_later n date).
Proof.
  unfold days_later. rewrite Nat.add_comm. apply Nat.iter_add.
Qed.

Lemma days_later_in_month (k : nat) (y m d : Z) :
  d + Z.of_nat k <= days_in_month y m ->
  days_later k (mk_datetime y m d) = mk_datetime y m (d + Z.of_nat k).
Proof.
  revert d. induction k as [| k IH]; intros d Hk.
  - cbn. f_equal. lia.
  - change (days_later (S k) ?x) with (next_day (days_later k x)).
    rewrite IH by lia. cbn -[Z.of_nat].
    destruct (Z.ltb_spec (d + Z.of_nat k) (days_in_month y m)); [f_equal | ]; lia.
Qed.

Lemma days_later_next_month (y m : Z) :
  1 <= days_in_month y m -> m < 12 ->
  days_later (Z.to_nat (days_in_month y m)) (mk_datetime y m 1)
  = mk_datetime y (m + 1) 1.
Proof.
  intros Hdim Hm.
  replace (Z.to_nat (days_in_month y m))
    with (Z.to_nat (days_in_month y m - 1) + 1)%nat by lia.
  rewrite days_later_add, days_later_in_month by lia.
  replace (1 + Z.of_nat (Z.to_nat (days_in_month y m - 1)))
    with (days_in_month y m) by lia.
  cbn. rewrite Z.ltb_irrefl.
  destruct (Z.ltb_spec m 12); [reflexivity | lia].
Qed.

Lemma days_in_month_bounds (y m : Z) :
  1 <= m <= 12 -> 28 <= days_in_month y m <= 31.
Proof.
  intros Hm.
  assert (Hcases : m = 1 \/ m = 2 \/ m = 3 \/ m = 4 \/ m = 5 \/ m = 6 \/ m = 7
                   \/ m = 8 \/ m = 9 \/ m = 10 \/ m = 11 \/ m = 12) by lia.
  unfold days_in_month.
  repeat (destruct Hcases as [-> | Hcases]); try subst m;
    cbn; destruct (is_leap y); cbn; lia.
Qed.

Lemma days_of_months_before_succ (y : Z) (k : nat) :
  days_of_months_before y (S k)
  = days_of_months_before y k + days_in_month y (Z.of_nat (S k)).
Proof.
  unfold days_of_months_before.
  rewrite seq_S, !map_app, fold_right_app. cbn [map fold_right].
  change (1 + k)%nat with (S k).
  generalize (days_in_month y (Z.of_nat (S k))) as x.
  generalize (map (days_in_month y) (map Z.of_nat (seq 1 k))) as l.
  induction l as [| a l IH]; intros x; cbn [fold_right]; [lia | rewrite IH; lia].
Qed.

Lemma days_of_months_before_nonneg (y : Z) (k : nat) :
  (k <= 12)%nat -> 0 <= days_of_months_before y k.
Proof.
  induction k as [| k IH]; intros Hk.
  - cbn. lia.
  - rewrite days_of_months_before_succ.
    pose proof (days_in_month_bounds y (Z.of_nat (S k))). lia.
Qed.

Lemma days_later_first_of_month (y : Z) (k : nat) :
  (k < 12)%nat ->
  days_later (Z.to_nat (days_of_months_before y k)) (mk_datetime y 1 1)
  = mk_datetime y (1 + Z.of_nat k) 1.
Proof.
  induction k as [| k IH]; intros Hk.
  - reflexivity.
  - rewrite days_of_months_before_succ.
    pose proof (days_of_months_before_nonneg y k).
    pose proof (days_in_month_bounds y (Z.of_nat (S k))).
    rewrite Z2Nat.inj_add, days_later_add, IH by lia.
    replace (1 + Z.of_nat k) with (Z.of_nat (S k)) by lia.
    rewrite days_later_next_month by lia. f_equal. lia.
Qed.

Lemma conventional_day_number_table (y m d : Z) :
  1 <= m <= 12 -> conventional_day_number y m d = days_before_month y m + d.
Proof.
  intros Hm.
  assert (Hcases : m = 1 \/ m = 2 \/ m = 3 \/ m = 4 \/ m = 5 \/ m = 6 \/ m = 7
                   \/ m = 8 \/ m = 9 \/ m = 10 \/ m = 11 \/ m = 12) by lia.
  unfold conventional_day_number, days_of_months_before, days_before_month,
    days_in_month.
  repeat (destruct Hcases as [-> | Hcases]); try subst m;
    destruct (is_leap y); reflexivity.
Qed.

Lemma valid_date_inv (y m d : Z) :
  valid_date y m d = true ->
  1 <= y <= 9999 /\ 1 <= m <= 12 /\ 1 <= d <= days_in_month y m.
Proof.
  unfold valid_date. rewrite !andb_true_iff, !Z.leb_le. lia.
Qed.

Lemma day_of_year_valid (y m d : Z) :
  valid_date y m d = true ->
  day_of_year (mk_datetime y m d) = Ok (conventional_day_number y m d - 1).
Proof.
  intros Hv. destruct (valid_date_inv _ _ _ Hv) as (Hy & Hm & Hd).
  unfold day_of_year, new_datetime.
  replace (valid_date (dt_year (mk_datetime y m d)) 1 1) with true.
  - cbn. unfold timedelta_days, toordinal, ymd2ord. cbn.
    rewrite conventional_day_number_table by lia.
    f_equal. lia.
  - cbn [dt_year]. unfold valid_date.
    symmetry. rewrite !andb_true_iff, !Z.leb_le. cbn. lia.
Qed.

(** C10. For a valid calendar date, [day_of_year] counts the whole days
    elapsed since January 1 of the same year: it is one less than the
    conventional day number, January 1 being day 0, and that number is the
    one [solar_heat_gain] hands to [solar_declination]. *)
Theorem day_of_year_counts_from_zero (year month day : Z)
  (Hvalid : valid_date year month day = true) :
  let N := conventional_day_number year month day - 1 in
  day_of_year (mk_datetime year month day) = Ok N
  /\ days_later (Z.to_nat N) (mk_datetime year 1 1) = mk_datetime year month day
  /\ day_of_year (mk_datetime year 1 1) = Ok 0
  /\ day_of_year (mk_datetime year 1 21) = Ok 20
  /\ forall (hour H_e lat : R) (industrial_atmosphere : bool) (Z_l D_o alpha : R),
       solar_heat_gain year month day hour H_e lat industrial_atmosphere Z_l D_o
         alpha
       = solar_heat_gain_on_day N hour H_e lat industrial_atmosphere Z_l D_o alpha.
Proof.
  intros N. subst N.
  destruct (valid_date_inv _ _ _ Hvalid) as (Hy & Hm & Hd).
  assert (Hjan : forall d, 1 <= d <= 31 -> valid_date year 1 d = true).
  { intros d Hd31. unfold valid_date.
    rewrite !andb_true_iff, !Z.leb_le. cbn. lia. }
  split; [apply day_of_year_valid, Hvalid | split; [| split; [| split]]].
  - unfold conventional_day_number.
    pose proof (days_of_months_before_nonneg year (Z.to_nat month - 1)).
    replace (Z.to_nat (days_of_months_before year (Z.to_nat month - 1) + day - 1))
      with (Z.to_nat (days_of_months_before year (Z.to_nat month - 1))
            + Z.to_nat (day - 1))%nat by lia.
    rewrite days_later_add, days_later_first_of_month by lia.
    replace (1 + Z.of_nat (Z.to_nat month - 1)) with month by lia.
    rewrite days_later_in_month by lia. f_equal. lia.
  - rewrite day_of_year_valid by (apply Hjan; lia). reflexivity.
  - rewrite day_of_year_valid by (apply Hjan; lia). reflexivity.
  - intros. unfold solar_heat_gain, new_datetime. rewrite Hvalid. cbn [bind].
    rewrite day_of_year_valid by exact Hvalid. reflexivity.
Qed.

Lemma day_of_year_counts_from_zero_witness :
  let N := conventional_day_number 2023 6 21 - 1 in
  day_of_year (mk_datetime 2023 6 21) = Ok N
  /\ days_later (Z.to_nat N) (mk_datetime 2023 1 1) = mk_datetime 2023 6 21
  /\ day_of_year (mk_datetime 2023 1 1) = Ok 0
  /\ day_of_year (mk_datetime 2023 1 21) = Ok 20
  /\ forall (hour H_e lat : R) (industrial_atmosphere : bool) (Z_l D_o alpha : R),
       solar_heat_gain 2023 6 21 hour H_e lat industrial_atmosphere Z_l D_o alpha
       = solar_heat_gain_on_day N hour H_e lat industrial_atmosphere Z_l D_o alpha.
Proof.
  apply (day_of_year_counts_from_zero 2023 6 21). reflexivity.
Defined.

(** The solstices of a common year: days 171 and 354, where the conventional
    numbering has 172 and 355. *)
Example day_of_year_solstices :
  day_of_year (mk_datetime 2023 6 21) = Ok 171
  /\ day_of_year (mk_datetime 2023 12 21) = Ok 354
  /\ conventional_day_number 2023 6 21 = 172
  /\ conventional_day_number 2023 12 21 = 355
  /\ conventional_day_number 2023 1 21 = 21.
Proof. repeat split. Qed.

Open Scope R_scope.

(** ** Convection heat loss *)

Lemma pow_frac_total (x : num) (y : R) :
  0 < y -> exists p, pow_frac x y = Ok p.
Proof.
  intros Hy. unfold pow_frac.
  destruct x as [b | a b].
  - destruct (Req_bool b 0); [| destruct (Rlt_bool 0 b)]; Rbool; eexists; reflexivity.
  - destruct (num_is_zero (Cpx a b)); Rbool; eexists; reflexivity.
Qed.

Lemma pow_frac_negative_base (b y : R) :
  b < 0 ->
  pow_frac (Flt b) y
  = Ok (Cpx (Rpower (- b) y * cos (PI * y)) (Rpower (- b) y * sin (PI * y))).
Proof. intros Hb. unfold pow_frac. Rbool. reflexivity. Qed.

Lemma pow_frac_positive_base (b y : R) :
  0 < b -> pow_frac (Flt b) y = Ok (Flt (Rpower b y)).
Proof. intros Hb. unfold pow_frac. Rbool. reflexivity. Qed.

Lemma pow_frac_zero_base (y : R) : 0 < y -> pow_frac (Flt 0) y = Ok (Flt 0).
Proof. intros Hy. unfold pow_frac. Rbool. reflexivity. Qed.

Lemma num_mul_complex_r (a : num) (re im : R) :
  exists re' im', num_mul a (Cpx re im) = Cpx re' im'.
Proof. destruct a; do 2 eexists; reflexivity. Qed.

Lemma py_max_not_out_of_fuel (a b : num) : py_max a b <> OutOfFuel.
Proof.
  destruct a, b; cbn; try discriminate.
  destruct (Rlt_bool x x0); discriminate.
Qed.

Lemma py_max_complex_r (a : num) (re im : R) : py_max a (Cpx re im) = Raise TypeError.
Proof. destruct a; reflexivity. Qed.

Lemma py_max_floats (x y : R) : py_max (Flt x) (Flt y) = Ok (Rmax x y).
Proof.
  unfold py_max, num_gt, Rmax. cbn.
  destruct (Rlt_bool_spec x y) as [H | H]; destruct (Rle_dec x y);
    try reflexivity; f_equal; lra.
Qed.

(** A [try: max(...) except: 0] block always produces a float. *)
Lemma try_max_total (a b : num) : exists q, try_except (py_max a b) (Ok 0) = Ok q.
Proof.
  pose proof (py_max_not_out_of_fuel a b) as H.
  destruct (py_max a b); cbn; [eexists; reflexivity .. | contradiction].
Qed.

Lemma natural_convection_total (rho_f D_o T_s T_a : R) :
  exists q_cn, natural_convection_heat_loss rho_f D_o T_s T_a = Ok q_cn.
Proof.
  unfold natural_convection_heat_loss.
  destruct (pow_frac_total (Flt rho_f) 0.5) as [p1 ->]; [lra |].
  destruct (pow_frac_total (Flt D_o) 0.75) as [p2 ->]; [lra |].
  destruct (pow_frac_total (Flt (T_s - T_a)) 1.25) as [p3 ->]; [lra |].
  eexists; reflexivity.
Qed.

(** Below ambient temperature the natural-convection term is complex. *)
Lemma natural_convection_complex (rho_f D_o T_s T_a : R) :
  T_s < T_a ->
  exists re im, natural_convection_heat_loss rho_f D_o T_s T_a = Ok (Cpx re im).
Proof.
  intros Hlt. unfold natural_convection_heat_loss.
  destruct (pow_frac_total (Flt rho_f) 0.5) as [p1 ->]; [lra |].
  destruct (pow_frac_total (Flt D_o) 0.75) as [p2 ->]; [lra |].
  rewrite pow_frac_negative_base by lra. cbn [bind].
  destruct (num_mul_complex_r (num_mul (num_mul (Flt 3.645) p1) p2)
              (Rpower (- (T_s - T_a)) 1.25 * cos (PI * 1.25))
              (Rpower (- (T_s - T_a)) 1.25 * sin (PI * 1.25))) as (re & im & ->).
  do 2 eexists; reflexivity.
Qed.

Lemma forced_convection_total (K_angle : R) (N_Re : num) (k_f T_s T_a : R) :
  exists q_cf, forced_convection_heat_loss K_angle N_Re k_f T_s T_a = Ok q_cf.
Proof.
  unfold forced_convection_heat_loss.
  destruct (pow_frac_total N_Re 0.52) as [p1 ->]; [lra |].
  destruct (pow_frac_total N_Re 0.6) as [p2 ->]; [lra |].
  cbn [bind]. apply try_max_total.
Qed.

Lemma air_density_defined (H_e T_film : R) :
  1 + 0.00367 * T_film <> 0 ->
  air_density H_e T_film
  = Ok ((1.293 - 1.525e-4 * H_e + 6.379e-9 * H_e ^ 2) / (1 + 0.00367 * T_film)).
Proof.
  intros H. unfold air_density, py_div. rewrite Req_bool_false by exact H. reflexivity.
Qed.


Lemma Rpower_pos (x y : R) : 0 < Rpower x y.
Proof. unfold Rpower. apply exp_pos. Qed.

Lemma air_density_numerator_positive (H_e : R) :
  0 < 1.293 - 1.525e-4 * H_e + 6.379e-9 * H_e ^ 2.
Proof.
  assert (H : 0 <= (6.379e-9 * H_e - 0.76250e-4) ^ 2) by apply pow2_ge_0.
  nra.
Qed.

Lemma sin_PI_3_2 : sin (PI * 1.5) = -1.
Proof.
  replace (PI * 1.5) with (3 * (PI / 2)) by lra. apply sin_3PI2.
Qed.

Lemma air_viscosity_warm (T_film : R) :
  0 < T_film + 273 ->
  air_viscosity T_film
  = Ok (Flt (1.458e-6 * Rpower (T_film + 273) 1.5 / (T_film + 383.4))).
Proof.
  intros H. unfold air_viscosity.
  rewrite pow_frac_positive_base by exact H. cbn [bind num_mul].
  unfold num_div, num_is_zero. cbn [re_part im_part].
  rewrite (Req_bool_false (T_film + 383.4)) by lra. reflexivity.
Qed.


(** Away from its two poles the viscosity is defined and is not zero. *)
Lemma air_viscosity_nonzero (T_film : R) :
  T_film + 273 <> 0 -> T_film + 383.4 <> 0 ->
  exists mu_f, air_viscosity T_film = Ok mu_f /\ num_is_zero mu_f = false.
Proof.
  intros H273 H383.
  destruct (Rlt_dec 0 (T_film + 273)) as [Hpos | Hneg].
  - rewrite air_viscosity_warm by exact Hpos. eexists; split; [reflexivity |].
    unfold num_is_zero. cbn [re_part im_part].
    rewrite Req_bool_false; [reflexivity |].
    pose proof (Rpower_pos (T_film + 273) 1.5) as Hp.
    intros Hz. apply Rmult_integral in Hz. destruct Hz as [Hz | Hz].
    + apply Rmult_integral in Hz. lra.
    + apply Rinv_neq_0_compat in H383. contradiction.
  - unfold air_viscosity. rewrite pow_frac_negative_base by lra.
    cbn [bind num_mul re_part im_part]. unfold num_div.
    unfold num_is_zero at 1. cbn [re_part im_part].
    rewrite (Req_bool_false (T_film + 383.4)) by exact H383. cbn [andb].
    eexists; split; [reflexivity |].
    unfold num_is_zero. cbn [re_part im_part].
    rewrite sin_PI_3_2.
    pose proof (Rpower_pos (- (T_film + 273)) 1.5) as Hp.
    set (p := Rpower (- (T_film + 273)) 1.5) in *.
    set (c := cos (PI * 1.5)).
    rewrite (Req_bool_false ((_ - _) / _)), andb_false_r; [reflexivity |].
    assert (Hd : (T_film + 383.4) * (T_film + 383.4) + 0 * 0 <> 0) by nra.
    intros Hz. apply Rmult_integral in Hz. destruct Hz as [Hz | Hz].
    + nra.
    + apply Rinv_neq_0_compat in Hd. contradiction.
Qed.

Lemma reynolds_number_defined (D_o rho_f V_w : R) (mu_f : num) :
  num_is_zero mu_f = false ->
  exists N_Re, reynolds_number D_o rho_f V_w mu_f = Ok N_Re.
Proof.
  intros H. unfold reynolds_number, num_div. rewrite H.
  destruct mu_f; eexists; reflexivity.
Qed.


Lemma convection_heat_loss_defined (T_s T_a H_e D_o phi V_w : R)
  (Hdensity : 1 + 0.00367 * temperature_boundary_layer T_s T_a <> 0)
  (Hzero : temperature_boundary_layer T_s T_a + 273 <> 0)
  (Hviscosity : temperature_boundary_layer T_s T_a + 383.4 <> 0) :
  exists q_c, convection_heat_loss T_s T_a H_e D_o phi V_w = Ok q_c.
Proof.
  unfold convection_heat_loss.
  set (T_film := temperature_boundary_layer T_s T_a) in *.
  rewrite air_density_defined by exact Hdensity. cbn [bind].
  destruct (air_viscosity_nonzero T_film Hzero Hviscosity) as (mu_f & -> & Hmu).
  cbn [bind].
  match goal with
  | |- context [natural_convection_heat_loss ?rho D_o T_s T_a] =>
      destruct (natural_convection_total rho D_o T_s T_a) as [q_cn ->];
      destruct (reynolds_number_defined D_o rho V_w mu_f Hmu) as [N_Re ->]
  end.
  cbn [bind].
  destruct (forced_convection_total (wind_direction_factor phi) N_Re
              (air_thermal_conductivity_coefficient T_film) T_s T_a) as [q_cf ->].
  cbn [bind]. apply try_max_total.
Qed.




Lemma convection_heat_loss_complex_branch (T_s T_a H_e D_o phi V_w mu_f : R)
  (Hbelow : T_s < T_a)
  (Hviscosity : air_viscosity (temperature_boundary_layer T_s T_a) = Ok (Flt mu_f))
  (Hpositive : 0 < mu_f)
  (Hdensity : 1 + 0.00367 * temperature_boundary_layer T_s T_a <> 0) :
  convection_heat_loss T_s T_a H_e D_o phi V_w = Ok 0.
Proof.
  unfold convection_heat_loss.
  set (T_film := temperature_boundary_layer T_s T_a) in *.
  rewrite air_density_defined by exact Hdensity. cbn [bind].
  rewrite Hviscosity. cbn [bind].
  match goal with
  | |- context [natural_convection_heat_loss ?rho D_o T_s T_a] =>
      destruct (natural_convection_complex rho D_o T_s T_a Hbelow) as (re & im & ->);
      destruct (reynolds_number_defined D_o rho V_w (Flt mu_f)) as [N_Re ->]
  end.
  - unfold num_is_zero. cbn [re_part]. rewrite Req_bool_false by lra. reflexivity.
  - cbn [bind].
    destruct (forced_convection_total (wind_direction_factor phi) N_Re
                (air_thermal_conductivity_coefficient T_film) T_s T_a) as [q_cf ->].
    cbn [bind]. rewrite py_max_complex_r. reflexivity.
Qed.

Lemma air_viscosity_positive (T_film : R) :
  0 < T_film + 273 ->
  exists mu_f, air_viscosity T_film = Ok (Flt mu_f) /\ 0 < mu_f.
Proof.
  intros H. eexists; split; [apply air_viscosity_warm, H |].
  apply Rdiv_lt_0_compat; [| lra].
  apply Rmult_lt_0_compat; [lra | apply Rpower_pos].
Qed.




(** The wind direction factor is positive whatever the angle. *)
Lemma wind_direction_factor_range (phi : R) :
  0.09 < wind_direction_factor phi <= 2.756.
Proof.
  unfold wind_direction_factor.
  replace (radians (2 * phi)) with (2 * radians phi) by (unfold radians; lra).
  rewrite cos_2a_cos, sin_2a.
  pose proof (sin2_cos2 (radians phi)) as Hcircle. unfold Rsqr in Hcircle.
  set (s := sin (radians phi)) in *. set (c := cos (radians phi)) in *.
  pose proof (pow2_ge_0 (1 - 50 / 41 * c)) as H1.
  pose proof (pow2_ge_0 (s + 0.736 * c)) as H2.
  pose proof (pow2_ge_0 c) as H3.
  pose proof (pow2_ge_0 s) as H4.
  pose proof (pow2_ge_0 (s - c)) as H5.
  pose proof (pow2_ge_0 (1 + c)) as H6.
  split; nra.
Qed.

Lemma wind_direction_factor_perpendicular : wind_direction_factor 90 = 1.
Proof.
  unfold wind_direction_factor.
  replace (radians (2 * 90)) with PI by (unfold radians; lra).
  replace (radians 90) with (PI / 2) by (unfold radians; lra).
  rewrite cos_PI2, cos_PI, sin_PI. lra.
Qed.

(** A conductor without diameter has no natural convection and a Reynolds
    number of 0: at or above ambient temperature what is left is the first
    forced-convection correlation, at [N_Re = 0]. *)
Lemma convection_heat_loss_no_diameter (T_s T_a H_e phi V_w : R) :
  T_a <= T_s ->
  0 < 1 + 0.00367 * temperature_boundary_layer T_s T_a ->
  0 < temperature_boundary_layer T_s T_a + 273 ->
  0 <= air_thermal_conductivity_coefficient (temperature_boundary_layer T_s T_a) ->
  convection_heat_loss T_s T_a H_e 0 phi V_w
  = Ok (wind_direction_factor phi * (1.01 + 1.35 * 0)
        * air_thermal_conductivity_coefficient (temperature_boundary_layer T_s T_a)
        * (T_s - T_a)).
Proof.
  intros Habove Hden Hwarm Hk. unfold convection_heat_loss.
  set (T_film := temperature_boundary_layer T_s T_a) in *.
  set (k_f := air_thermal_conductivity_coefficient T_film) in *.
  pose proof (wind_direction_factor_range phi) as HK.
  set (K := wind_direction_factor phi) in *.
  rewrite air_density_defined by lra. cbn [bind].
  rewrite air_viscosity_warm by exact Hwarm. cbn [bind].
  set (rho_f := (1.293 - 1.525e-4 * H_e + 6.379e-9 * H_e ^ 2) / (1 + 0.00367 * T_film)).
  assert (Hrho : 0 < rho_f).
  { apply Rdiv_lt_0_compat; [apply air_density_numerator_positive | exact Hden]. }
  set (mu_f := 1.458e-6 * Rpower (T_film + 273) 1.5 / (T_film + 383.4)).
  assert (Hmu : 0 < mu_f).
  { apply Rdiv_lt_0_compat; [| lra].
    apply Rmult_lt_0_compat; [lra | apply Rpower_pos]. }
  unfold natural_convection_heat_loss.
  rewrite pow_frac_positive_base by exact Hrho.
  rewrite pow_frac_zero_base by lra. cbn [bind].
  destruct (pow_frac_total (Flt (T_s - T_a)) 1.25) as [p3 Hp3]; [lra |].
  assert (Hp3' : exists x, p3 = Flt x).
  { revert Hp3. unfold pow_frac.
    destruct (Req_bool_spec (T_s - T_a) 0) as [_ | Hnz].
    - rewrite Rlt_bool_false by lra. intros H. injection H as <-. eexists; reflexivity.
    - rewrite Rlt_bool_true by lra. intros H. injection H as <-. eexists; reflexivity. }
  destruct Hp3' as [x ->]. rewrite Hp3. cbn [bind num_mul].
  unfold reynolds_number, num_div, num_is_zero. cbn [re_part im_part].
  rewrite (Req_bool_false mu_f) by lra. cbn [andb bind].
  replace (0 * rho_f * V_w / mu_f) with 0 by (unfold Rdiv; ring).
  unfold forced_convection_heat_loss.
  rewrite !pow_frac_zero_base by lra. cbn [bind num_mul num_add].
  rewrite py_max_floats. cbn [try_except bind]. rewrite py_max_floats.
  cbn [try_except]. f_equal.
  replace (K * 0.754 * 0 * k_f * (T_s - T_a)) with 0 by ring.
  replace (3.645 * Rpower rho_f 0.5 * 0 * x) with 0 by ring.
  assert (Hq : 0 <= K * (1.01 + 1.35 * 0) * k_f * (T_s - T_a)).
  { apply Rmult_le_pos; [apply Rmult_le_pos; [nra | exact Hk] | lra]. }
  rewrite (Rmax_left _ 0 Hq). apply Rmax_left. exact Hq.
Qed.

(** ** Solar heat gain *)

Lemma radians_degrees (x : R) : radians (degrees x) = x.
Proof. unfold radians, degrees. field. apply PI_neq0. Qed.

Lemma asin_nonneg (x : R) : 0 <= x <= 1 -> 0 <= asin x.
Proof.
  intros Hx.
  destruct (Rle_lt_dec 0 (asin x)) as [H | H]; [exact H |].
  pose proof (asin_bound x) as Hb. pose proof PI_RGT_0 as Hpi.
  assert (Hsin : sin (asin x) < 0) by (apply sin_lt_0_var; lra).
  rewrite sin_asin in Hsin by lra. lra.
Qed.

Lemma asin_nonpos (x : R) : -1 <= x <= 0 -> asin x <= 0.
Proof.
  intros Hx. replace x with (- - x) by ring. rewrite asin_opp.
  pose proof (asin_nonneg (- x)). lra.
Qed.

(** The altitude is clamped: the function never answers a negative angle. *)
Lemma altitude_sun_nonneg (lat delta omega H_c : R) :
  altitude_sun lat delta omega = Ok H_c -> 0 <= H_c.
Proof.
  unfold altitude_sun, math_asin.
  destruct (_ || _); cbn [bind]; [discriminate |].
  intros H. injection H as <-.
  destruct (Rlt_bool_spec (degrees (asin
     (cos (radians lat) * cos (radians delta) * cos (radians omega)
      + sin (radians lat) * sin (radians delta)))) 0); lra.
Qed.

(** Sun below the horizon: the sine of the altitude is not positive. *)
Lemma altitude_sun_below_horizon (lat delta omega : R) :
  -1 <= cos (radians lat) * cos (radians delta) * cos (radians omega)
        + sin (radians lat) * sin (radians delta) <= 0 ->
  altitude_sun lat delta omega = Ok 0.
Proof.
  intros Harg. unfold altitude_sun, math_asin.
  set (x := cos (radians lat) * cos (radians delta) * cos (radians omega)
            + sin (radians lat) * sin (radians delta)) in *.
  rewrite (Rlt_bool_false x (-1)), (Rlt_bool_false 1 x) by lra. cbn [orb bind].
  pose proof (asin_nonpos x Harg) as Ha. pose proof PI_RGT_0 as Hpi.
  assert (Hd : degrees (asin x) <= 0).
  { unfold degrees.
    replace (asin x * 180 / PI) with (- ((- asin x) * 180 * / PI)) by (field; lra).
    assert (0 <= - asin x * 180 * / PI); [| lra].
    apply Rmult_le_pos; [lra | left; apply Rinv_0_lt_compat; lra]. }
  destruct (Rlt_bool_spec (degrees (asin x)) 0); f_equal; lra.
Qed.

Lemma total_heat_flux_density_horizon (industrial_atmosphere : bool) :
  total_heat_flux_density 0 industrial_atmosphere
  = if industrial_atmosphere then 53.1821 else -42.2391.
Proof. unfold total_heat_flux_density. destruct industrial_atmosphere; cbn; lra. Qed.

Lemma sin_incidence_nonneg (H_c Z_c Z_l theta : R) :
  solar_rays_incidence_angle H_c Z_c Z_l = Ok theta -> 0 <= sin (radians theta).
Proof.
  unfold solar_rays_incidence_angle, math_acos.
  destruct (_ || _); cbn [bind]; [discriminate |].
  intros H. injection H as <-. rewrite radians_degrees.
  apply sin_ge_0; apply acos_bound.
Qed.

(** C6, as the code has it. In a clear atmosphere, with a non-negative
    absorptivity, diameter and elevation correction factor, a call of
    [solar_heat_gain] that returns while the computed sun altitude is not
    positive returns exactly 0. *)
Theorem solar_heat_gain_clear_sky_night (year month day N : Z) (date : datetime)
  (hour H_e lat Z_l D_o alpha H_c q_s : R)
  (Hdate : new_datetime year month day = Ok date)
  (Hday : day_of_year date = Ok N)
  (Haltitude : altitude_sun lat (solar_declination N) (hour_angle hour) = Ok H_c)
  (Hdown : H_c <= 0)
  (Halpha : 0 <= alpha) (Hdiameter : 0 <= D_o)
  (Helevation : 0 <= elevation_correction_factor H_e)
  (Hreturn : solar_heat_gain year month day hour H_e lat false Z_l D_o alpha = Ok q_s) :
  q_s = 0.
Proof.
  assert (H0 : H_c = 0) by (pose proof (altitude_sun_nonneg _ _ _ _ Haltitude); lra).
  subst H_c. revert Hreturn. unfold solar_heat_gain.
  rewrite Hdate. cbn [bind]. rewrite Hday. cbn [bind]. rewrite Haltitude. cbn [bind].
  destruct (azimuth_variable _ _ _) as [ji | e |]; cbn [bind]; try discriminate.
  destruct (solar_rays_incidence_angle _ _ _) as [theta | e |] eqn:Htheta;
    cbn [bind]; try discriminate.
  apply sin_incidence_nonneg in Htheta.
  rewrite total_heat_flux_density_horizon. unfold total_heat_flux_intensity.
  intros H. injection H as <-.
  set (s := sin (radians theta)) in *.
  set (K := elevation_correction_factor H_e) in *.
  assert (Hp : 0 <= alpha * K * (s * D_o))
    by (apply Rmult_le_pos; apply Rmult_le_pos; assumption).
  replace (alpha * (K * -42.2391) * s * D_o)
    with (-42.2391 * (alpha * K * (s * D_o)))
    by (generalize (-42.2391); intros c; ring).
  set (p := alpha * K * (s * D_o)) in *.
  destruct (Rlt_bool_spec (-42.2391 * p) 0); lra.
Qed.

(** *** A concrete night: March 23 of a common year, midnight, latitude 30 *)

Lemma radians_0 : radians 0 = 0.
Proof. unfold radians. lra. Qed.

Lemma radians_30 : radians 30 = PI / 6.
Proof. unfold radians. lra. Qed.

Lemma radians_90 : radians 90 = PI / 2.
Proof. unfold radians. lra. Qed.

Lemma radians_minus_180 : radians (-180) = - PI.
Proof. unfold radians. lra. Qed.

Lemma solar_declination_day_81 : solar_declination 81 = 0.
Proof.
  unfold solar_declination, radians.
  replace ((284 + 81) * 360 / 365 * PI / 180) with (2 * PI) by lra.
  rewrite sin_2PI. lra.
Qed.

Lemma hour_angle_midnight : hour_angle 0 = -180.
Proof. unfold hour_angle. lra. Qed.

Lemma altitude_sun_equinox_midnight : altitude_sun 30 0 (-180) = Ok 0.
Proof.
  apply altitude_sun_below_horizon.
  rewrite radians_30, radians_0, radians_minus_180.
  rewrite cos_neg, cos_PI, cos_0, sin_0.
  pose proof (COS_bound (PI / 6)) as Hb. pose proof PI_RGT_0 as Hpi.
  assert (0 <= cos (PI / 6)) by (apply cos_ge_0; lra).
  lra.
Qed.

Lemma azimuth_variable_equinox_midnight : azimuth_variable (-180) 30 0 = Ok 0.
Proof.
  unfold azimuth_variable, py_div.
  rewrite radians_30, radians_0, radians_minus_180.
  rewrite sin_neg, cos_neg, sin_PI, cos_PI, sin_PI6, tan_0.
  rewrite Req_bool_false by lra. f_equal. lra.
Qed.

Lemma azimuth_constant_midnight : azimuth_constant (-180) 0 = 0.
Proof. unfold azimuth_constant. Rbool. reflexivity. Qed.

Lemma azimuth_north : azimuth 0 0 = 0.
Proof. unfold azimuth, degrees. rewrite atan_0. unfold Rdiv. ring. Qed.

Lemma degrees_half_turn : degrees (PI / 2) = 90.
Proof. unfold degrees. field. apply PI_neq0. Qed.

Lemma incidence_angle_east_west : solar_rays_incidence_angle 0 0 90 = Ok 90.
Proof.
  unfold solar_rays_incidence_angle, math_acos.
  rewrite radians_0, cos_0.
  replace (radians (0 - 90)) with (- (PI / 2)) by (unfold radians; lra).
  rewrite cos_neg, cos_PI2. Rbool. cbn [orb bind].
  replace (1 * 0) with 0 by ring.
  rewrite acos_0, degrees_half_turn. reflexivity.
Qed.

Lemma elevation_correction_factor_sea_level : elevation_correction_factor 0 = 1.
Proof. unfold elevation_correction_factor. cbn. lra. Qed.

Lemma solar_heat_gain_equinox_midnight (industrial_atmosphere : bool) (D_o alpha : R) :
  solar_heat_gain 2023 3 23 0 0 30 industrial_atmosphere 90 D_o alpha
  = let Q_s := if industrial_atmosphere then 53.1821 else -42.2391 in
    Ok (if Rlt_bool (alpha * (1 * Q_s) * 1 * D_o) 0 then 0
        else alpha * (1 * Q_s) * 1 * D_o).
Proof.
  unfold solar_heat_gain.
  change (new_datetime 2023 3 23) with (Ok (mk_datetime 2023 3 23)). cbn [bind].
  change (day_of_year (mk_datetime 2023 3 23)) with (@Ok Z 81%Z). cbn [bind].
  rewrite solar_declination_day_81, hour_angle_midnight,
    altitude_sun_equinox_midnight. cbn [bind].
  rewrite azimuth_variable_equinox_midnight. cbn [bind].
  rewrite azimuth_constant_midnight, azimuth_north, incidence_angle_east_west.
  cbn [bind].
  rewrite radians_90, sin_PI2, total_heat_flux_density_horizon,
    elevation_correction_factor_sea_level.
  reflexivity.
Qed.

Lemma solar_heat_gain_equinox_midnight_clear :
  solar_heat_gain 2023 3 23 0 0 30 false 90 0.01 0.5 = Ok 0.
Proof.
  rewrite solar_heat_gain_equinox_midnight. cbv zeta.
  rewrite Rlt_bool_true by lra. reflexivity.
Qed.

Lemma solar_heat_gain_clear_sky_night_witness :
  solar_heat_gain 2023 3 23 0 0 30 false 90 0.01 0.5 = Ok 0
  /\ altitude_sun 30 (solar_declination 81) (hour_angle 0) = Ok 0.
Proof.
  assert (Halt : altitude_sun 30 (solar_declination 81) (hour_angle 0) = Ok 0).
  { rewrite solar_declination_day_81, hour_angle_midnight.
    apply altitude_sun_equinox_midnight. }
  split; [| exact Halt].
  destruct (solar_heat_gain 2023 3 23 0 0 30 false 90 0.01 0.5) as [q_s | e |] eqn:Hq.
  - f_equal.
    apply (solar_heat_gain_clear_sky_night 2023 3 23 81 (mk_datetime 2023 3 23)
             0 0 30 90 0.01 0.5 0 q_s).
    + reflexivity.
    + reflexivity.
    + exact Halt.
    + lra.
    + lra.
    + lra.
    + rewrite elevation_correction_factor_sea_level. lra.
    + exact Hq.
  - rewrite solar_heat_gain_equinox_midnight in Hq. discriminate.
  - rewrite solar_heat_gain_equinox_midnight in Hq. discriminate.
Defined.

(** C6 fails in an industrial atmosphere: at midnight the sun altitude is 0
    and the gain is [0.5 * 53.1821 * 0.01], not 0. *)
Lemma solar_heat_gain_industrial_night :
  altitude_sun 30 (solar_declination 81) (hour_angle 0) = Ok 0
  /\ day_of_year (mk_datetime 2023 3 23) = Ok 81%Z
  /\ solar_heat_gain 2023 3 23 0 0 30 true 90 0.01 0.5 = Ok 0.2659105
  /\ 0.2659105 <> 0.
Proof.
  split; [| split; [reflexivity | split; [| lra]]].
  - rewrite solar_declination_day_81, hour_angle_midnight.
    apply altitude_sun_equinox_midnight.
  - rewrite solar_heat_gain_equinox_midnight. cbv zeta.
    rewrite Rlt_bool_false by lra. f_equal. lra.
Qed.

(** *** A concrete polar day: the pole, day 172 of the year, hour 0 *)

Lemma degrees_radians (x : R) : degrees (radians x) = x.
Proof. unfold radians, degrees. field. apply PI_neq0. Qed.

Lemma solar_declination_day_172 :
  0 < solar_declination 172 <= 23.46.
Proof.
  unfold solar_declination, radians.
  replace ((284 + 172) * 360 / 365 * PI / 180)
    with (182 / 365 * PI + 2 * INR 1 * PI) by (cbn [INR]; lra).
  rewrite sin_period.
  pose proof PI_RGT_0 as Hpi.
  assert (Hs : 0 < sin (182 / 365 * PI)) by (apply sin_gt_0; lra).
  pose proof (SIN_bound (182 / 365 * PI)) as Hb. lra.
Qed.

(** At the pole in summer the sun is up at hour 0: midnight does not imply
    an altitude of 0. *)
Lemma midnight_sun_altitude :
  exists H_c,
    altitude_sun 90 (solar_declination 172) (hour_angle 0) = Ok H_c /\ 0 < H_c.
Proof.
  pose proof solar_declination_day_172 as Hdelta.
  set (delta := solar_declination 172) in *.
  pose proof PI_RGT_0 as Hpi.
  assert (Hr : 0 < radians delta <= PI / 2) by (unfold radians; nra).
  unfold altitude_sun, math_asin.
  rewrite radians_90, cos_PI2, sin_PI2.
  replace (0 * cos (radians delta) * cos (radians (hour_angle 0))
           + 1 * sin (radians delta)) with (sin (radians delta)) by ring.
  pose proof (SIN_bound (radians delta)) as Hb.
  rewrite (Rlt_bool_false (sin (radians delta)) (-1)),
    (Rlt_bool_false 1 (sin (radians delta))) by lra.
  cbn [orb bind]. rewrite asin_sin by lra. rewrite degrees_radians.
  rewrite Rlt_bool_false by lra. exists delta. split; [reflexivity | lra].
Qed.

(** ** Calls that finish *)

Lemma finishes_ok {A : Type} (a : A) : finishes (Ok a).
Proof. discriminate. Qed.

Lemma finishes_raise {A : Type} (e : exn) : finishes (@Raise A e).
Proof. discriminate. Qed.

Lemma finishes_bind {A B : Type} (m : res A) (k : A -> res B) :
  finishes m -> (forall a, finishes (k a)) -> finishes (bind m k).
Proof.
  intros Hm Hk. destruct m as [a | e |]; cbn; [apply Hk | discriminate | contradiction].
Qed.

Lemma finishes_try_except {A : Type} (body handler : res A) :
  finishes body -> finishes handler -> finishes (try_except body handler).
Proof.
  intros Hb Hh. destruct body; cbn; [discriminate | exact Hh | contradiction].
Qed.

Lemma finishes_py_div (x y : R) : finishes (py_div x y).
Proof. unfold py_div. destruct (Req_bool y 0); discriminate. Qed.

Lemma finishes_num_div (a b : num) : finishes (num_div a b).
Proof.
  unfold num_div. destruct (num_is_zero b); [discriminate |].
  destruct a, b; discriminate.
Qed.

Lemma finishes_pow_frac (x : num) (y : R) : finishes (pow_frac x y).
Proof.
  unfold pow_frac. destruct x as [b | a b].
  - destruct (Req_bool b 0); [destruct (Rlt_bool y 0) | destruct (Rlt_bool 0 b)];
      discriminate.
  - destruct (num_is_zero (Cpx a b)); [destruct (Rlt_bool y 0) |]; discriminate.
Qed.

Lemma finishes_math_sqrt (a : num) : finishes (math_sqrt a).
Proof.
  destruct a as [x | re im]; cbn; [destruct (Rlt_bool x 0) |]; discriminate.
Qed.

Lemma finishes_py_max (a b : num) : finishes (py_max a b).
Proof. exact (py_max_not_out_of_fuel a b). Qed.

Create HintDb finishes.

#[local] Hint Resolve finishes_ok finishes_raise finishes_py_div finishes_num_div
  finishes_pow_frac finishes_math_sqrt finishes_py_max : finishes.

Ltac finishes :=
  repeat first
    [ solve [auto with finishes]
    | apply finishes_try_except
    | apply finishes_bind; [| intros ?] ].

Lemma finishes_convection_heat_loss (T_s T_a H_e D_o phi V_w : R) :
  finishes (convection_heat_loss T_s T_a H_e D_o phi V_w).
Proof.
  unfold convection_heat_loss, air_density, air_viscosity,
    natural_convection_heat_loss, reynolds_number, forced_convection_heat_loss.
  cbv zeta. finishes.
Qed.

Lemma finishes_steady_state_thermal_rating (q_c q_r q_s R_T_avg : R) :
  finishes (steady_state_thermal_rating q_c q_r q_s R_T_avg).
Proof. unfold steady_state_thermal_rating. finishes. Qed.

Lemma finishes_secant_body (I_ss V_w phi epsilon T_a D_o R_0 T_0 alpha_T H_e q_s : R)
  (st : secant_state) :
  finishes (secant_body I_ss V_w phi epsilon T_a D_o R_0 T_0 alpha_T H_e q_s st).
Proof.
  unfold secant_body. cbv zeta.
  repeat (apply finishes_bind;
          [first [apply finishes_convection_heat_loss
                 | apply finishes_steady_state_thermal_rating] | intros ?]).
  apply finishes_ok.
Qed.

Lemma bind_assoc {A B C : Type} (m : res A) (k : A -> res B) (h : B -> res C) :
  bind (bind m k) h = bind m (fun a => bind (k a) h).
Proof. destruct m; reflexivity. Qed.

(** ** The secant iteration *)

Section Secant.

Variables I_ss V_w phi epsilon alpha T_a D_o R_0 T_0 alpha_T Z_l lat : R.
Variable industrial_atmosphere : bool.
Variables year month day : Z.
Variables hour H_e es : R.
Variable imax : Z.
Variable q_s : R.

Local Abbreviation body :=
  (secant_body I_ss V_w phi epsilon T_a D_o R_0 T_0 alpha_T H_e q_s).
Local Abbreviation loop fuel :=
  (secant_loop fuel I_ss V_w phi epsilon T_a D_o R_0 T_0 alpha_T H_e q_s es imax).
Local Abbreviation solver fuel :=
  (steady_state_conductor_temperature fuel I_ss V_w phi epsilon alpha T_a D_o R_0
     T_0 alpha_T Z_l lat industrial_atmosphere year month day hour H_e es imax).
Local Abbreviation solar :=
  (solar_heat_gain year month day hour H_e lat industrial_atmosphere Z_l D_o alpha).
Local Abbreviation residual_at :=
  (residual I_ss V_w phi epsilon T_a D_o R_0 T_0 alpha_T H_e q_s).
Local Abbreviation passes :=
  (secant_passes I_ss V_w phi epsilon T_a D_o R_0 T_0 alpha_T H_e q_s).
Local Abbreviation stops := (stops_at es imax).
Local Abbreviation update :=
  (secant_update I_ss V_w phi epsilon T_a D_o R_0 T_0 alpha_T H_e q_s).
Local Abbreviation updates :=
  (secant_updates I_ss V_w phi epsilon T_a D_o R_0 T_0 alpha_T H_e q_s).
Local Abbreviation pass_raises :=
  (secant_pass_raises I_ss V_w phi epsilon T_a D_o R_0 T_0 alpha_T H_e q_s).

Lemma secant_exit_stops (st : secant_state) :
  secant_exit es imax st = true <-> stops st.
Proof.
  unfold secant_exit, stops_at. rewrite orb_true_iff, Z.leb_le.
  destruct (Rle_bool_spec (st_ea st) es); intuition discriminate.
Qed.

Lemma secant_passes_succ (n : nat) (st : secant_state) :
  passes (S n) st = (s <- passes n st ;; body s).
Proof.
  revert st. induction n as [| n IH]; intros st.
  - cbn. destruct (body st); reflexivity.
  - change (passes (S (S n)) st)
      with (st' <- body st ;; passes (S n) st').
    change (passes (S n) st) with (st' <- body st ;; passes n st').
    rewrite bind_assoc. destruct (body st) as [st' | e |]; cbn [bind]; auto.
Qed.

(** What one pass does to the loop variables. *)
Lemma secant_body_inv (st st' : secant_state) :
  body st = Ok st' ->
  exists f f',
    residual_at (st_T_i st) = Ok f
    /\ residual_at (st_T_i st * (1 + 0.1)) = Ok f'
    /\ st_T_i st'
       = (if Req_bool (f' - f) 0 then st_T_i st
          else st_T_i st - (0.1 * st_T_i st * f) / (f' - f))
    /\ st_ea st'
       = (if Req_bool (st_T_i st') 0 then st_ea st
          else Rabs ((st_T_i st' - st_T_i st) / st_T_i st') * 100)
    /\ st_i st' = (st_i st + 1)%Z.
Proof.
  unfold secant_body, residual. cbv zeta.
  destruct (convection_heat_loss (st_T_i st) T_a H_e D_o phi V_w) as [q | e |];
    cbn [bind]; try discriminate.
  destruct (convection_heat_loss (st_T_i st * (1 + 0.1)) T_a H_e D_o phi V_w)
    as [q' | e |]; cbn [bind]; try discriminate.
  destruct (steady_state_thermal_rating q _ _ _) as [I | e |];
    cbn [bind]; try discriminate.
  destruct (steady_state_thermal_rating q' _ _ _) as [I' | e |];
    cbn [bind]; try discriminate.
  intros H. injection H as <-. cbn [st_T_i st_ea st_i].
  exists (I - I_ss), (I' - I_ss). repeat split.
  - destruct (Req_bool (I' - I_ss - (I - I_ss)) 0); reflexivity.
  - destruct (Req_bool (I' - I_ss - (I - I_ss)) 0); cbn [negb];
      match goal with |- context [Req_bool ?x 0] => destruct (Req_bool x 0) end;
      reflexivity.
Qed.

Lemma secant_body_defined (st : secant_state) (f f' : R) :
  residual_at (st_T_i st) = Ok f ->
  residual_at (st_T_i st * (1 + 0.1)) = Ok f' ->
  exists st', body st = Ok st'.
Proof.
  unfold secant_body, residual. cbv zeta.
  destruct (convection_heat_loss (st_T_i st) T_a H_e D_o phi V_w) as [q | e |];
    cbn [bind]; try discriminate.
  destruct (convection_heat_loss (st_T_i st * (1 + 0.1)) T_a H_e D_o phi V_w)
    as [q' | e |]; cbn [bind]; try (intros _; discriminate).
  destruct (steady_state_thermal_rating q _ _ _) as [I | e |];
    cbn [bind]; try discriminate.
  destruct (steady_state_thermal_rating q' _ _ _) as [I' | e |];
    cbn [bind]; try (intros _; discriminate).
  intros _ _. eexists; reflexivity.
Qed.

(** A pass that succeeds is one secant update of the trial temperature. *)
Lemma secant_body_update (st st' : secant_state) :
  body st = Ok st' -> update (st_T_i st) (st_T_i st').
Proof.
  intros Hbody.
  destruct (secant_body_inv st st' Hbody) as (f & f' & Hf & Hf' & HT & _).
  exists f, f'. split; [exact Hf | split; [exact Hf' |]].
  rewrite HT. split; intros Hd.
  - rewrite Req_bool_true by exact Hd. reflexivity.
  - rewrite Req_bool_false by exact Hd. reflexivity.
Qed.

(** A pass raises what one of its two residuals raises. *)
Lemma secant_body_raises (st : secant_state) (e : exn) :
  body st = Raise e -> pass_raises (st_T_i st) e.
Proof.
  unfold secant_body, secant_pass_raises, residual. cbv zeta.
  destruct (convection_heat_loss (st_T_i st) T_a H_e D_o phi V_w) as [q | e0 |];
    cbn [bind]; [| intros H; injection H as ->; left; reflexivity | discriminate].
  destruct (steady_state_thermal_rating_total q
              (radiated_heat_loss D_o epsilon (st_T_i st) T_a) q_s
              (conductor_electrical_resistance R_0 T_0 alpha_T (st_T_i st)))
    as [I HI].
  destruct (convection_heat_loss (st_T_i st * (1 + 0.1)) T_a H_e D_o phi V_w)
    as [q' | e0 |]; cbn [bind].
  - rewrite HI. cbn [bind].
    destruct (steady_state_thermal_rating_total q'
                (radiated_heat_loss D_o epsilon (st_T_i st * (1 + 0.1)) T_a) q_s
                (conductor_electrical_resistance R_0 T_0 alpha_T
                   (st_T_i st * (1 + 0.1)))) as [I' ->].
    discriminate.
  - intros H. injection H as ->. right. split; [| reflexivity].
    rewrite HI. cbn [bind]. eexists; reflexivity.
  - discriminate.
Qed.

(** The loop makes secant updates from the trial it is entered with, and
    answers the last trial or the exception of the pass that failed. *)
Lemma secant_loop_updates (fuel : nat) :
  forall st : secant_state,
    (1 <= fuel)%nat ->
    (Z.to_nat (imax - st_i st) <= fuel)%nat ->
    exists (n : nat) (T : R),
      updates n (st_T_i st) T
      /\ (((1 <= n)%nat /\ loop fuel st = Ok T)
          \/ exists e, pass_raises T e /\ loop fuel st = Raise e).
Proof.
  induction fuel as [| fuel IH]; intros st Hpos Hfuel; [lia |].
  cbn [secant_loop].
  destruct (body st) as [st' | e |] eqn:Hbody.
  - pose proof (secant_body_update st st' Hbody) as Hstep.
    destruct (secant_body_inv st st' Hbody) as (_ & _ & _ & _ & _ & _ & Hi).
    cbn [bind]. destruct (secant_exit es imax st') eqn:Hexit.
    + exists 1%nat, (st_T_i st'). split.
      * apply secant_updates_step with (T_1 := st_T_i st');
          [exact Hstep | apply secant_updates_none].
      * left. split; [lia | reflexivity].
    + assert (Hgo : ~ stops st').
      { rewrite <- secant_exit_stops, Hexit. discriminate. }
      assert (Hlt : (st_i st' < imax)%Z) by (unfold stops_at in Hgo; lia).
      destruct (IH st') as (n & T & Hchain & Hend); [lia | lia |].
      exists (S n), T. split.
      * apply secant_updates_step with (T_1 := st_T_i st'); assumption.
      * destruct Hend as [[Hn Hloop] | Hraise]; [left; split; [lia | exact Hloop] |].
        right. exact Hraise.
  - exists 0%nat, (st_T_i st). split; [apply secant_updates_none |].
    right. exists e. split; [apply secant_body_raises, Hbody | reflexivity].
  - exfalso. exact (finishes_secant_body _ _ _ _ _ _ _ _ _ _ _ _ Hbody).
Qed.

(** C1. A call whose solar gain is defined runs the secant iteration from
    the trial temperature [T_a + 5]: it makes [n] updates, each of which
    evaluates the residual at the trial [T] and at [T * (1 + 0.1)] and moves
    the trial to [T - (0.1 * T * f(T)) / (f(T') - f(T))], or keeps it when the
    two residuals are equal.  The call returns the trial reached after these
    updates, of which there is at least one, or raises what a residual raised
    at the trial it had reached. *)
Theorem secant_iteration_step (fuel : nat)
  (Hsolar : solar = Ok q_s)
  (Hfuel : (Nat.max 1 (Z.to_nat imax) <= fuel)%nat) :
  exists (n : nat) (T : R),
    secant_updates I_ss V_w phi epsilon T_a D_o R_0 T_0 alpha_T H_e q_s n (T_a + 5) T
    /\ (((1 <= n)%nat /\ solver fuel = Ok T)
        \/ exists e,
            secant_pass_raises I_ss V_w phi epsilon T_a D_o R_0 T_0 alpha_T H_e q_s T e
            /\ solver fuel = Raise e).
Proof.
  destruct (secant_loop_updates fuel (secant_init T_a)) as (n & T & Hchain & Hend).
  - lia.
  - cbn [secant_init st_i]. rewrite Z.sub_0_r. lia.
  - exists n, T. split; [exact Hchain |].
    unfold steady_state_conductor_temperature. rewrite Hsolar. cbn [bind].
    exact Hend.
Qed.

Lemma secant_loop_runs (fuel : nat) :
  forall st : secant_state,
    (1 <= fuel)%nat ->
    (Z.to_nat (imax - st_i st) <= fuel)%nat ->
    exists n : nat,
      (1 <= n <= Nat.max 1 (Z.to_nat (imax - st_i st)))%nat
      /\ (forall k, (1 <= k < n)%nat ->
                    exists s, passes k st = Ok s /\ ~ stops s)
      /\ match passes n st with
         | Ok s =>
             stops s /\ st_i s = (st_i st + Z.of_nat n)%Z
             /\ loop fuel st = Ok (st_T_i s)
         | Raise e => loop fuel st = Raise e
         | OutOfFuel => False
         end.
Proof.
  induction fuel as [| fuel IH]; intros st Hpos Hfuel; [lia |].
  cbn [secant_loop].
  destruct (body st) as [st' | e |] eqn:Hbody.
  - destruct (secant_body_inv st st' Hbody) as (_ & _ & _ & _ & _ & _ & Hi).
    cbn [bind]. destruct (secant_exit es imax st') eqn:Hexit.
    + exists 1%nat. split; [lia | split; [intros k Hk; lia |]].
      cbn [secant_passes]. rewrite Hbody. cbn [bind].
      split; [apply secant_exit_stops, Hexit | split; [lia | reflexivity]].
    + assert (Hgo : ~ stops st').
      { rewrite <- secant_exit_stops, Hexit. discriminate. }
      assert (Hlt : (st_i st' < imax)%Z) by (unfold stops_at in Hgo; lia).
      destruct (IH st') as (n & Hn & Hearly & Hfinal); [lia | lia |].
      exists (S n). split; [lia | split].
      * intros [| k] Hk; [lia |]. cbn [secant_passes]. rewrite Hbody. cbn [bind].
        destruct k as [| k]; [exists st'; split; [reflexivity | exact Hgo] |].
        apply Hearly. lia.
      * cbn [secant_passes]. rewrite Hbody. cbn [bind].
        destruct (passes n st') as [s | e |]; [| exact Hfinal | exact Hfinal].
        destruct Hfinal as (Hstop & Hcount & Hloop).
        split; [exact Hstop | split; [lia | exact Hloop]].
  - exists 1%nat. split; [lia | split; [intros k Hk; lia |]].
    cbn [secant_passes]. rewrite Hbody. reflexivity.
  - exfalso. exact (finishes_secant_body _ _ _ _ _ _ _ _ _ _ _ _ Hbody).
Qed.

(** C2. With an iteration cap of at least 1 the iteration comes to an end
    within [imax] passes: it makes [n] full passes with [1 <= n <= imax],
    none of the earlier passes met the exit test
    [ea <= es or i >= imax], and the call returns the trial temperature of
    pass [n] (or the exception a sub-model raised in that pass); the relative
    change [ea] keeps its previous value when the new trial is 0. *)
Theorem secant_loop_terminates (fuel : nat)
  (Hsolar : solar = Ok q_s)
  (Himax : (1 <= imax)%Z)
  (Hfuel : (Z.to_nat imax <= fuel)%nat) :
  (exists n : nat,
      (1 <= n <= Z.to_nat imax)%nat
      /\ (forall k, (1 <= k < n)%nat ->
                    exists s, passes k (secant_init T_a) = Ok s
                              /\ ~ stops s)
      /\ match passes n (secant_init T_a) with
         | Ok s =>
             stops s /\ st_i s = Z.of_nat n /\ solver fuel = Ok (st_T_i s)
         | Raise e => solver fuel = Raise e
         | OutOfFuel => False
         end)
  /\ (forall (k : nat) (s s' : secant_state),
         passes k (secant_init T_a) = Ok s ->
         passes (S k) (secant_init T_a) = Ok s' ->
         (st_T_i s' = 0 -> st_ea s' = st_ea s)
         /\ (st_T_i s' <> 0 ->
             st_ea s' = Rabs ((st_T_i s' - st_T_i s) / st_T_i s') * 100)).
Proof.
  split.
  - destruct (secant_loop_runs fuel (secant_init T_a)) as (n & Hn & Hearly & Hfinal).
    + lia.
    + cbn [secant_init st_i]. rewrite Z.sub_0_r. exact Hfuel.
    + cbn [secant_init st_i] in Hn. rewrite Z.sub_0_r in Hn.
      exists n. split; [lia | split; [exact Hearly |]].
      unfold steady_state_conductor_temperature. rewrite Hsolar. cbn [bind].
      destruct (passes n (secant_init T_a)) as [s | e |]; exact Hfinal.
  - intros k s s' Hs Hs'. rewrite secant_passes_succ, Hs in Hs'. cbn [bind] in Hs'.
    destruct (secant_body_inv s s' Hs') as (f & f' & _ & _ & _ & Hea & _).
    rewrite Hea. split; intros H0.
    + rewrite Req_bool_true by exact H0. reflexivity.
    + rewrite Req_bool_false by exact H0. reflexivity.
Qed.

End Secant.

Lemma residual_defined (I_ss V_w phi epsilon T_a D_o R_0 T_0 alpha_T H_e q_s T : R) :
  1 + 0.00367 * temperature_boundary_layer T T_a <> 0 ->
  temperature_boundary_layer T T_a + 273 <> 0 ->
  temperature_boundary_layer T T_a + 383.4 <> 0 ->
  exists f, residual I_ss V_w phi epsilon T_a D_o R_0 T_0 alpha_T H_e q_s T = Ok f.
Proof.
  intros Hd Hz Hv. unfold residual.
  destruct (convection_heat_loss_defined T T_a H_e D_o phi V_w Hd Hz Hv) as [q_c ->].
  cbn [bind].
  destruct (steady_state_thermal_rating_total q_c
              (radiated_heat_loss D_o epsilon T T_a) q_s
              (conductor_electrical_resistance R_0 T_0 alpha_T T)) as [I ->].
  eexists; reflexivity.
Qed.

Lemma secant_iteration_step_witness :
  exists (n : nat) (T : R),
    secant_updates 1000 0.61 90 0.5 40 0.01 0.0001 25 0.00403 0 0 n (40 + 5) T
    /\ (((1 <= n)%nat
         /\ steady_state_conductor_temperature 50 1000 0.61 90 0.5 0.5 40 0.01 0.0001
              25 0.00403 90 30 false 2023 3 23 0 0 0.1 50 = Ok T)
        \/ exists e,
            secant_pass_raises 1000 0.61 90 0.5 40 0.01 0.0001 25 0.00403 0 0 T e
            /\ steady_state_conductor_temperature 50 1000 0.61 90 0.5 0.5 40 0.01
                 0.0001 25 0.00403 90 30 false 2023 3 23 0 0 0.1 50 = Raise e).
Proof.
  apply (secant_iteration_step 1000 0.61 90 0.5 0.5 40 0.01 0.0001 25 0.00403 90 30
           false 2023 3 23 0 0 0.1 50 0 50%nat).
  - exact solar_heat_gain_equinox_midnight_clear.
  - vm_compute. lia.
Defined.

Lemma secant_loop_terminates_witness :
  (exists n : nat,
      (1 <= n <= Z.to_nat 50)%nat
      /\ (forall k, (1 <= k < n)%nat ->
                    exists s,
                      secant_passes 1000 0.61 90 0.5 40 0.01 0.0001 25 0.00403 0 0 k
                        (secant_init 40) = Ok s
                      /\ ~ stops_at 0.1 50 s)
      /\ match secant_passes 1000 0.61 90 0.5 40 0.01 0.0001 25 0.00403 0 0 n
                 (secant_init 40) with
         | Ok s =>
             stops_at 0.1 50 s /\ st_i s = Z.of_nat n
             /\ steady_state_conductor_temperature 50 1000 0.61 90 0.5 0.5 40 0.01
                  0.0001 25 0.00403 90 30 false 2023 3 23 0 0 0.1 50
                = Ok (st_T_i s)
         | Raise e =>
             steady_state_conductor_temperature 50 1000 0.61 90 0.5 0.5 40 0.01
               0.0001 25 0.00403 90 30 false 2023 3 23 0 0 0.1 50
             = Raise e
         | OutOfFuel => False
         end)
  /\ (forall (k : nat) (s s' : secant_state),
         secant_passes 1000 0.61 90 0.5 40 0.01 0.0001 25 0.00403 0 0 k
           (secant_init 40) = Ok s ->
         secant_passes 1000 0.61 90 0.5 40 0.01 0.0001 25 0.00403 0 0 (S k)
           (secant_init 40) = Ok s' ->
         (st_T_i s' = 0 -> st_ea s' = st_ea s)
         /\ (st_T_i s' <> 0 ->
             st_ea s' = Rabs ((st_T_i s' - st_T_i s) / st_T_i s') * 100)).
Proof.
  apply (secant_loop_terminates 1000 0.61 90 0.5 0.5 40 0.01 0.0001 25 0.00403 90 30
           false 2023 3 23 0 0 0.1 50 0 50%nat).
  - exact solar_heat_gain_equinox_midnight_clear.
  - lia.
  - vm_compute. lia.
Defined.

(** ** The temperature trajectory *)

Lemma steady_state_conductor_temperature_solar (fuel : nat)
  (I_ss V_w phi epsilon alpha T_a D_o R_0 T_0 alpha_T Z_l lat : R)
  (industrial_atmosphere : bool) (year month day : Z) (hour H_e es : R) (imax : Z)
  (T : R) :
  steady_state_conductor_temperature fuel I_ss V_w phi epsilon alpha T_a D_o R_0 T_0
    alpha_T Z_l lat industrial_atmosphere year month day hour H_e es imax = Ok T ->
  exists q_s,
    solar_heat_gain year month day hour H_e lat industrial_atmosphere Z_l D_o alpha
    = Ok q_s.
Proof.
  unfold steady_state_conductor_temperature.
  destruct (solar_heat_gain _ _ _ _ _ _ _ _ _ _) as [q_s | e |];
    cbn [bind]; try discriminate.
  intros _. exists q_s. reflexivity.
Qed.

Lemma list_last_snoc (T : list R) (x : R) : list_last (T ++ [x]) = Ok x.
Proof. unfold list_last. rewrite rev_app_distr. reflexivity. Qed.

Lemma int_trunc_nonneg (x : R) : 0 <= x -> int_trunc x = Int_part x.
Proof. intros H. unfold int_trunc. rewrite Rle_bool_true by exact H. reflexivity. Qed.

Section Trajectory.

Variables I_f dt mC_p V_w phi epsilon T_a D_o R_0 T_0 alpha_T H_e q_s : R.

Local Abbreviation euler :=
  (euler_loop I_f mC_p V_w phi epsilon T_a D_o R_0 T_0 alpha_T H_e q_s).
Local Abbreviation increment :=
  (euler_increment I_f dt mC_p V_w phi epsilon T_a D_o R_0 T_0 alpha_T H_e q_s).
Local Abbreviation chain :=
  (euler_chain I_f dt mC_p V_w phi epsilon T_a D_o R_0 T_0 alpha_T H_e q_s).

Lemma euler_loop_chain (n : nat) :
  forall (T0 T : list R) (x : R),
    list_last T0 = Ok x ->
    euler (repeat dt n) T0 = Ok T ->
    exists l, T = T0 ++ l /\ length l = n /\ chain x l.
Proof.
  induction n as [| n IH]; intros T0 T x Hlast Hloop.
  - cbn in Hloop. injection Hloop as <-. exists []. rewrite app_nil_r.
    cbn. auto.
  - cbn [repeat euler_loop] in Hloop. rewrite Hlast in Hloop. cbn [bind] in Hloop.
    destruct (convection_heat_loss x T_a H_e D_o phi V_w) as [q_c | e |] eqn:Hq;
      cbn [bind] in Hloop; try discriminate.
    unfold delta_T, py_div in Hloop.
    destruct (Req_bool mC_p 0); cbn [bind] in Hloop; try discriminate.
    apply IH with (x := x + (conductor_electrical_resistance R_0 T_0 alpha_T x
                              * I_f ^ 2 + q_s - q_c
                              - radiated_heat_loss D_o epsilon x T_a) / mC_p * dt)
      in Hloop; [| apply list_last_snoc].
    destruct Hloop as (l & -> & Hlen & Hchain).
    eexists (_ :: l). rewrite <- app_assoc. split; [reflexivity |].
    split; [cbn; lia |]. split; [| exact Hchain].
    exists q_c. split; [exact Hq | reflexivity].
Qed.

Lemma euler_chain_nth (l : list R) :
  forall (x : R) (k : nat),
    chain x l -> (k < length l)%nat ->
    increment (nth k (x :: l) 0) (nth k l 0).
Proof.
  induction l as [| y l IH]; intros x k Hchain Hk; [cbn in Hk; lia |].
  destruct Hchain as [Hstep Hchain].
  destruct k as [| k]; [exact Hstep |].
  cbn [nth]. apply (IH y k Hchain). cbn in Hk. lia.
Qed.

Lemma euler_chain_of_nth (l : list R) :
  forall x : R,
    (forall k, (k < length l)%nat -> increment (nth k (x :: l) 0) (nth k l 0)) ->
    chain x l.
Proof.
  induction l as [| y l IH]; intros x Hnth; [exact I |].
  split.
  - apply (Hnth 0%nat). cbn. lia.
  - apply IH. intros k Hk. apply (Hnth (S k)). cbn. lia.
Qed.

(** A chain of increments is what the loop appends, as long as the division
    by the heat capacity is defined. *)
Lemma euler_loop_returns_chain (l : list R) :
  mC_p <> 0 ->
  forall (T0 : list R) (x : R),
    list_last T0 = Ok x ->
    chain x l ->
    euler (repeat dt (length l)) T0 = Ok (T0 ++ l).
Proof.
  intros Hcapacity.
  induction l as [| y l IH]; intros T0 x Hlast Hchain.
  - cbn. rewrite app_nil_r. reflexivity.
  - destruct Hchain as [(q_c & Hq & Hy) Hchain].
    cbn [length repeat euler_loop]. rewrite Hlast. cbn [bind]. rewrite Hq. cbn [bind].
    unfold delta_T, py_div. rewrite Req_bool_false by exact Hcapacity. cbn [bind].
    rewrite <- Hy. rewrite (IH (T0 ++ [y]) y (list_last_snoc T0 y) Hchain).
    rewrite <- app_assoc. reflexivity.
Qed.

Lemma finishes_euler_loop (nt : list R) :
  forall T0 : list R, finishes (euler nt T0).
Proof.
  induction nt as [| delta_t nt IH]; intros T0; [apply finishes_ok |].
  cbn [euler_loop].
  apply finishes_bind;
    [unfold list_last; destruct (rev T0); [apply finishes_raise | apply finishes_ok] |].
  intros T_last.
  apply finishes_bind; [apply finishes_convection_heat_loss | intros q_c_i].
  apply finishes_bind; [unfold delta_T; finishes | intros dT]. apply IH.
Qed.

End Trajectory.

(** C7. With a positive step and a non-negative horizon, whose float
    quotient is then not negative, and once the steady state [T_i] for [I_i]
    is found, [transient_conductor_temperature] comes to an end and the list
    it returns is the Euler trajectory from [T_i]: it has
    [floor (time / dt) + 1] elements, for the float quotient [time / dt], the
    first one is [T_i], and every element follows from the one before it by
    one forward-Euler increment, with one solar gain for the whole list.
    With a non-zero heat capacity that trajectory is returned whenever it
    exists, that is whenever the convective loss is defined at each of its
    temperatures. *)
Theorem transient_conductor_temperature_trajectory (float_div : R -> R -> R)
  (fuel : nat)
  (I_i I_f dt time mC_p V_w phi epsilon alpha T_a D_o R_0 T_0 alpha_T Z_l lat : R)
  (industrial_atmosphere : bool) (year month day : Z) (hour H_e es : R) (imax : Z)
  (T_i : R)
  (Hstep : 0 < dt) (Hhorizon : 0 <= time)
  (Hquotient : 0 <= time / dt -> 0 <= float_div time dt)
  (Hinitial :
     steady_state_conductor_temperature fuel I_i V_w phi epsilon alpha T_a D_o R_0
       T_0 alpha_T Z_l lat industrial_atmosphere year month day hour H_e es imax
     = Ok T_i) :
  exists q_s,
    solar_heat_gain year month day hour H_e lat industrial_atmosphere Z_l D_o alpha
    = Ok q_s
    /\ transient_conductor_temperature float_div fuel I_i I_f dt time mC_p V_w phi
         epsilon alpha T_a D_o R_0 T_0 alpha_T Z_l lat industrial_atmosphere year
         month day hour H_e es imax <> OutOfFuel
    /\ (forall T : list R,
           transient_conductor_temperature float_div fuel I_i I_f dt time mC_p V_w phi
             epsilon alpha T_a D_o R_0 T_0 alpha_T Z_l lat industrial_atmosphere year
             month day hour H_e es imax = Ok T ->
           euler_trajectory I_f dt mC_p V_w phi epsilon T_a D_o R_0 T_0 alpha_T H_e q_s
             (Z.to_nat (Int_part (float_div time dt))) T_i T)
    /\ (mC_p <> 0 ->
        forall T : list R,
          euler_trajectory I_f dt mC_p V_w phi epsilon T_a D_o R_0 T_0 alpha_T H_e q_s
            (Z.to_nat (Int_part (float_div time dt))) T_i T ->
          transient_conductor_temperature float_div fuel I_i I_f dt time mC_p V_w phi
            epsilon alpha T_a D_o R_0 T_0 alpha_T Z_l lat industrial_atmosphere year
            month day hour H_e es imax = Ok T).
Proof.
  destruct (steady_state_conductor_temperature_solar _ _ _ _ _ _ _ _ _ _ _ _ _ _ _ _
              _ _ _ _ _ _ Hinitial) as [q_s Hsolar].
  exists q_s. split; [exact Hsolar |].
  unfold transient_conductor_temperature. rewrite Hinitial, Hsolar. cbn [bind].
  unfold py_float_div. rewrite Req_bool_false by lra. cbn [bind].
  assert (Hq : 0 <= float_div time dt).
  { apply Hquotient. unfold Rdiv.
    apply Rmult_le_pos; [lra | left; apply Rinv_0_lt_compat; lra]. }
  rewrite int_trunc_nonneg by exact Hq.
  set (n := Z.to_nat (Int_part (float_div time dt))).
  split; [apply finishes_euler_loop | split].
  - intros T Hloop.
    apply euler_loop_chain with (x := T_i) in Hloop; [| reflexivity].
    destruct Hloop as (l & -> & Hlen & Hchain).
    split; [cbn [app length]; lia | split; [reflexivity |]].
    intros k Hk.
    apply (euler_chain_nth _ _ _ _ _ _ _ _ _ _ _ _ _ l T_i k Hchain).
    cbn [app length] in Hk. lia.
  - intros Hcapacity T (Hlen & Hfirst & Hsteps).
    destruct T as [| x l]; [cbn in Hlen; lia |].
    cbn [nth] in Hfirst. subst x.
    assert (Hl : length l = n) by (cbn [length] in Hlen; lia).
    rewrite <- Hl.
    apply (euler_loop_returns_chain _ _ _ _ _ _ _ _ _ _ _ _ _ l Hcapacity [T_i] T_i);
      [reflexivity |].
    apply euler_chain_of_nth. intros k Hk. apply (Hsteps k). cbn [length]. lia.
Qed.

(** A call that is allowed a single pass returns the first secant update. *)
Lemma steady_state_conductor_temperature_single_pass (fuel : nat)
  (I_ss V_w phi epsilon alpha T_a D_o R_0 T_0 alpha_T Z_l lat : R)
  (industrial_atmosphere : bool) (year month day : Z) (hour H_e es : R) (imax : Z)
  (q_s f f' : R) :
  solar_heat_gain year month day hour H_e lat industrial_atmosphere Z_l D_o alpha
  = Ok q_s ->
  (imax <= 1)%Z ->
  residual I_ss V_w phi epsilon T_a D_o R_0 T_0 alpha_T H_e q_s (T_a + 5) = Ok f ->
  residual I_ss V_w phi epsilon T_a D_o R_0 T_0 alpha_T H_e q_s
    ((T_a + 5) * (1 + 0.1)) = Ok f' ->
  steady_state_conductor_temperature (S fuel) I_ss V_w phi epsilon alpha T_a D_o R_0
    T_0 alpha_T Z_l lat industrial_atmosphere year month day hour H_e es imax
  = Ok (if Req_bool (f' - f) 0 then T_a + 5
        else T_a + 5 - (0.1 * (T_a + 5) * f) / (f' - f)).
Proof.
  intros Hsolar Himax Hf Hf'.
  unfold steady_state_conductor_temperature. rewrite Hsolar. cbn [bind secant_loop].
  destruct (secant_body_defined I_ss V_w phi epsilon T_a D_o R_0 T_0 alpha_T H_e q_s
              (secant_init T_a) f f' Hf Hf') as [st' Hbody].
  rewrite Hbody. cbn [bind].
  destruct (secant_body_inv _ _ _ _ _ _ _ _ _ _ _ _ _ Hbody)
    as (g & g' & Hg & Hg' & HT & _ & Hi).
  cbn [secant_init st_T_i st_i] in *.
  rewrite Hf in Hg. rewrite Hf' in Hg'. injection Hg as <-. injection Hg' as <-.
  unfold secant_exit. rewrite Hi.
  replace (imax <=? 0 + 1)%Z with true by (symmetry; apply Z.leb_le; lia).
  rewrite orb_true_r, HT. reflexivity.
Qed.

(** *** A concrete steady state: ambient temperature -5, one pass of the solver *)

Lemma steady_state_conductor_temperature_frozen_start (I_ss : R) :
  steady_state_conductor_temperature 1 I_ss 0.61 90 0.5 0.5 (-5) 0.01 0.0001 25
    0.00403 90 30 false 2023 3 23 0 0 0.1 1
  = Ok (-5 + 5).
Proof.
  destruct (residual_defined I_ss 0.61 90 0.5 (-5) 0.01 0.0001 25 0.00403 0 0
              (-5 + 5)) as [f Hf];
    try (unfold temperature_boundary_layer; lra).
  assert (Hf' : residual I_ss 0.61 90 0.5 (-5) 0.01 0.0001 25 0.00403 0 0
                  ((-5 + 5) * (1 + 0.1)) = Ok f).
  { replace ((-5 + 5) * (1 + 0.1)) with (-5 + 5) by lra. exact Hf. }
  rewrite (steady_state_conductor_temperature_single_pass 0 I_ss 0.61 90 0.5 0.5
             (-5) 0.01 0.0001 25 0.00403 90 30 false 2023 3 23 0 0 0.1 1 0 f f
             solar_heat_gain_equinox_midnight_clear ltac:(lia) Hf Hf').
  rewrite Req_bool_true by lra. reflexivity.
Qed.

(** *** A concrete trajectory: ambient temperature -5, a conductor without
    diameter, one pass of the solver, three steps of one second *)

Lemma steady_state_conductor_temperature_frozen_wire (I_ss : R) :
  steady_state_conductor_temperature 1 I_ss 0.61 90 0.5 0.5 (-5) 0 0.0001 25
    0.00403 90 30 false 2023 3 23 0 0 0.1 1
  = Ok 0.
Proof.
  assert (Hsolar : solar_heat_gain 2023 3 23 0 0 30 false 90 0 0.5 = Ok 0).
  { rewrite solar_heat_gain_equinox_midnight. cbv zeta.
    rewrite Rlt_bool_false by lra. f_equal. lra. }
  destruct (residual_defined I_ss 0.61 90 0.5 (-5) 0 0.0001 25 0.00403 0 0
              (-5 + 5)) as [f Hf];
    try (unfold temperature_boundary_layer; lra).
  assert (Hf' : residual I_ss 0.61 90 0.5 (-5) 0 0.0001 25 0.00403 0 0
                  ((-5 + 5) * (1 + 0.1)) = Ok f).
  { replace ((-5 + 5) * (1 + 0.1)) with (-5 + 5) by lra. exact Hf. }
  rewrite (steady_state_conductor_temperature_single_pass 0 I_ss 0.61 90 0.5 0.5
             (-5) 0 0.0001 25 0.00403 90 30 false 2023 3 23 0 0 0.1 1 0 f f
             Hsolar ltac:(lia) Hf Hf').
  rewrite Req_bool_true by lra. f_equal. lra.
Qed.

(** Between 0 and 1 degree, a current of 1000 A warms the wire by a little
    less than a tenth of a degree per second. *)
Lemma euler_increment_warming (x : R) :
  0 <= x <= 1 ->
  exists y,
    euler_increment 1000 1 1000 0.61 90 0.5 (-5) 0 0.0001 25 0.00403 0 0 x y
    /\ x < y <= x + 0.1.
Proof.
  intros Hx. unfold euler_increment.
  rewrite convection_heat_loss_no_diameter, wind_direction_factor_perpendicular;
    unfold temperature_boundary_layer, air_thermal_conductivity_coefficient;
    try nra.
  eexists. split; [eexists; split; reflexivity |].
  unfold conductor_electrical_resistance, radiated_heat_loss.
  split; nra.
Qed.

Lemma Int_part_three : Int_part (3 / 1) = 3%Z.
Proof. symmetry. apply Int_part_spec. lra. Qed.

Lemma transient_conductor_temperature_trajectory_witness :
  exists T : list R,
    transient_conductor_temperature Rdiv 1 100 1000 1 3 1000 0.61 90 0.5 0.5 (-5) 0
      0.0001 25 0.00403 90 30 false 2023 3 23 0 0 0.1 1 = Ok T
    /\ euler_trajectory 1000 1 1000 0.61 90 0.5 (-5) 0 0.0001 25 0.00403 0 0 3 0 T
    /\ nth 0 T 0 < nth 1 T 0 < nth 2 T 0
    /\ nth 2 T 0 < nth 3 T 0.
Proof.
  destruct (euler_increment_warming 0) as (y1 & Hstep1 & Hy1); [lra |].
  destruct (euler_increment_warming y1) as (y2 & Hstep2 & Hy2); [lra |].
  destruct (euler_increment_warming y2) as (y3 & Hstep3 & Hy3); [lra |].
  assert (Htrajectory :
            euler_trajectory 1000 1 1000 0.61 90 0.5 (-5) 0 0.0001 25 0.00403 0 0 3 0
              [0; y1; y2; y3]).
  { split; [reflexivity | split; [reflexivity |]].
    intros [| [| [| k]]] Hk; cbn [nth]; try assumption. cbn in Hk. lia. }
  exists [0; y1; y2; y3].
  split; [| split; [exact Htrajectory | cbn [nth]; lra]].
  destruct (transient_conductor_temperature_trajectory Rdiv 1 100 1000 1 3 1000 0.61
              90 0.5 0.5 (-5) 0 0.0001 25 0.00403 90 30 false 2023 3 23 0 0 0.1 1 0)
    as (q_s & Hsolar & _ & _ & Hreturned).
  - lra.
  - lra.
  - intros H. exact H.
  - exact (steady_state_conductor_temperature_frozen_wire 100).
  - rewrite solar_heat_gain_equinox_midnight in Hsolar. cbv zeta in Hsolar.
    rewrite Rlt_bool_false in Hsolar by lra.
    assert (Hq_s : q_s = 0) by (injection Hsolar as <-; lra).
    subst q_s. rewrite Int_part_three in Hreturned.
    apply Hreturned; [lra | exact Htrajectory].
Defined.

(** ** The settling time *)

(** Above ambient temperature the convection loss is at least the (positive)
    natural-convection term. *)
Lemma convection_heat_loss_positive (T_s T_a H_e D_o phi V_w : R) :
  T_a < T_s -> 0 < D_o ->
  0 < 1.293 - 1.525e-4 * H_e + 6.379e-9 * H_e ^ 2 ->
  0 < 1 + 0.00367 * temperature_boundary_layer T_s T_a ->
  0 < temperature_boundary_layer T_s T_a + 273 ->
  exists q_c, convection_heat_loss T_s T_a H_e D_o phi V_w = Ok q_c /\ 0 < q_c.
Proof.
  intros Habove Hdiam Hnum Hden Hwarm. unfold convection_heat_loss.
  set (T_film := temperature_boundary_layer T_s T_a) in *.
  rewrite air_density_defined by lra. cbn [bind].
  set (rho_f := (1.293 - 1.525e-4 * H_e + 6.379e-9 * H_e ^ 2)
                / (1 + 0.00367 * T_film)).
  assert (Hrho : 0 < rho_f) by (apply Rdiv_lt_0_compat; assumption).
  destruct (air_viscosity_positive T_film Hwarm) as (mu_f & -> & Hmu). cbn [bind].
  unfold natural_convection_heat_loss.
  rewrite !pow_frac_positive_base by lra. cbn [bind num_mul].
  unfold reynolds_number, num_div, num_is_zero. cbn [re_part im_part].
  rewrite (Req_bool_false mu_f) by lra. cbn [andb bind].
  destruct (forced_convection_total (wind_direction_factor phi)
              (Flt (D_o * rho_f * V_w / mu_f))
              (air_thermal_conductivity_coefficient T_film) T_s T_a) as [q_cf ->].
  cbn [bind]. rewrite py_max_floats. cbn [try_except].
  eexists; split; [reflexivity |].
  eapply Rlt_le_trans; [| apply Rmax_r].
  assert (Hc : 0 < 3.645) by lra.
  repeat (apply Rmult_lt_0_compat; [| apply Rpower_pos]). exact Hc.
Qed.

Lemma settling_loop_exits_on_entry (fuel : nat)
  (I_f dT mC_p V_w phi epsilon T_a D_o R_0 T_0 alpha_T H_e q_s T_f T Time : R) :
  T_f < T ->
  settling_loop fuel I_f dT mC_p V_w phi epsilon T_a D_o R_0 T_0 alpha_T H_e q_s T_f
    T Time = Ok Time.
Proof.
  intros H. destruct fuel; cbn [settling_loop];
    rewrite Rle_bool_false by lra; reflexivity.
Qed.

(** With a step that does not go up, the loop never returns. *)
Lemma settling_loop_never_returns (fuel : nat)
  (I_f dT mC_p V_w phi epsilon T_a D_o R_0 T_0 alpha_T H_e q_s T_f : R) :
  dT <= 0 ->
  forall T Time t : R,
    T <= T_f ->
    settling_loop fuel I_f dT mC_p V_w phi epsilon T_a D_o R_0 T_0 alpha_T H_e q_s
      T_f T Time <> Ok t.
Proof.
  intros HdT. induction fuel as [| fuel IH]; intros T Time t HT;
    cbn [settling_loop]; rewrite Rle_bool_true by exact HT; [discriminate |].
  destruct (convection_heat_loss T T_a H_e D_o phi V_w) as [q_c | e |];
    cbn [bind]; try discriminate.
  destruct (delta_t _ _ _ _ _ _ _) as [dt | e |]; cbn [bind]; try discriminate.
  apply IH. lra.
Qed.

Lemma secant_loop_more_fuel (fuel more : nat)
  (I_ss V_w phi epsilon T_a D_o R_0 T_0 alpha_T H_e q_s es : R) (imax : Z) (T : R) :
  forall st : secant_state,
    secant_loop fuel I_ss V_w phi epsilon T_a D_o R_0 T_0 alpha_T H_e q_s es imax st
    = Ok T ->
    secant_loop (fuel + more) I_ss V_w phi epsilon T_a D_o R_0 T_0 alpha_T H_e q_s es
      imax st = Ok T.
Proof.
  induction fuel as [| fuel IH]; intros st; cbn [secant_loop Nat.add];
    [discriminate |].
  destruct (secant_body _ _ _ _ _ _ _ _ _ _ _ st) as [st' | e |];
    cbn [bind]; try discriminate.
  destruct (secant_exit es imax st'); [auto | apply IH].
Qed.

(** A call that has returned returns the same value on a larger budget. *)
Lemma steady_state_conductor_temperature_more_fuel (fuel more : nat)
  (I_ss V_w phi epsilon alpha T_a D_o R_0 T_0 alpha_T Z_l lat : R)
  (industrial_atmosphere : bool) (year month day : Z) (hour H_e es : R) (imax : Z)
  (T : R) :
  steady_state_conductor_temperature fuel I_ss V_w phi epsilon alpha T_a D_o R_0 T_0
    alpha_T Z_l lat industrial_atmosphere year month day hour H_e es imax = Ok T ->
  steady_state_conductor_temperature (fuel + more) I_ss V_w phi epsilon alpha T_a D_o
    R_0 T_0 alpha_T Z_l lat industrial_atmosphere year month day hour H_e es imax
  = Ok T.
Proof.
  unfold steady_state_conductor_temperature.
  destruct (solar_heat_gain _ _ _ _ _ _ _ _ _ _) as [q_s | e |];
    cbn [bind]; try discriminate.
  apply secant_loop_more_fuel.
Qed.

Lemma transient_settling_time_skips_loop (fuel : nat)
  (I_i I_f dT mC_p V_w phi epsilon alpha T_a D_o R_0 T_0 alpha_T Z_l lat : R)
  (industrial_atmosphere : bool) (year month day : Z) (hour H_e es : R) (imax : Z)
  (T_i T_f : R) :
  steady_state_conductor_temperature fuel I_i V_w phi epsilon alpha T_a D_o R_0
    T_0 alpha_T Z_l lat industrial_atmosphere year month day hour H_e es imax
  = Ok T_i ->
  steady_state_conductor_temperature fuel I_f V_w phi epsilon alpha T_a D_o R_0
    T_0 alpha_T Z_l lat industrial_atmosphere year month day hour H_e es imax
  = Ok T_f ->
  T_f < T_i ->
  transient_settling_time fuel I_i I_f dT mC_p V_w phi epsilon alpha T_a D_o R_0
    T_0 alpha_T Z_l lat industrial_atmosphere year month day hour H_e es imax
  = Ok 0.
Proof.
  intros Hinitial Hfinal Hcooling.
  destruct (steady_state_conductor_temperature_solar _ _ _ _ _ _ _ _ _ _ _ _ _ _ _ _
              _ _ _ _ _ _ Hinitial) as [q_s Hsolar].
  unfold transient_settling_time.
  rewrite Hinitial, Hfinal, Hsolar. cbn [bind].
  apply settling_loop_exits_on_entry, Hcooling.
Qed.

Lemma transient_settling_time_no_return (fuel : nat)
  (I_i I_f dT mC_p V_w phi epsilon alpha T_a D_o R_0 T_0 alpha_T Z_l lat : R)
  (industrial_atmosphere : bool) (year month day : Z) (hour H_e es : R) (imax : Z)
  (T_i T_f : R) :
  steady_state_conductor_temperature fuel I_i V_w phi epsilon alpha T_a D_o R_0
    T_0 alpha_T Z_l lat industrial_atmosphere year month day hour H_e es imax
  = Ok T_i ->
  steady_state_conductor_temperature fuel I_f V_w phi epsilon alpha T_a D_o R_0
    T_0 alpha_T Z_l lat industrial_atmosphere year month day hour H_e es imax
  = Ok T_f ->
  T_i <= T_f -> dT <= 0 ->
  forall more t,
    transient_settling_time (fuel + more) I_i I_f dT mC_p V_w phi epsilon alpha
      T_a D_o R_0 T_0 alpha_T Z_l lat industrial_atmosphere year month day hour
      H_e es imax
    <> Ok t.
Proof.
  intros Hinitial Hfinal Hheating Hstep more t.
  destruct (steady_state_conductor_temperature_solar _ _ _ _ _ _ _ _ _ _ _ _ _ _ _ _
              _ _ _ _ _ _ Hinitial) as [q_s Hsolar].
  unfold transient_settling_time.
  rewrite (steady_state_conductor_temperature_more_fuel _ more _ _ _ _ _ _ _ _ _ _
             _ _ _ _ _ _ _ _ _ _ _ Hinitial),
    (steady_state_conductor_temperature_more_fuel _ more _ _ _ _ _ _ _ _ _ _
       _ _ _ _ _ _ _ _ _ _ _ Hfinal), Hsolar.
  cbn [bind]. apply settling_loop_never_returns; assumption.
Qed.

Lemma steady_state_thermal_rating_zero (q_c q_r q_s R_T_avg : R) :
  q_c + q_r - q_s = 0 -> R_T_avg <> 0 ->
  steady_state_thermal_rating q_c q_r q_s R_T_avg = Ok 0.
Proof.
  intros Hzero HR. unfold steady_state_thermal_rating, py_div.
  rewrite Req_bool_false by exact HR. cbn [bind math_sqrt].
  rewrite Hzero. unfold Rdiv. rewrite Rmult_0_l, Rlt_bool_false by lra.
  cbn [try_except]. rewrite sqrt_0. reflexivity.
Qed.

Lemma steady_state_thermal_rating_positive (q_c q_r q_s R_T_avg : R) :
  0 < q_c + q_r - q_s -> 0 < R_T_avg ->
  exists I, steady_state_thermal_rating q_c q_r q_s R_T_avg = Ok I /\ 0 < I.
Proof.
  intros Hpos HR. unfold steady_state_thermal_rating, py_div.
  rewrite Req_bool_false by lra. cbn [bind math_sqrt].
  assert (Hx : 0 < (q_c + q_r - q_s) / R_T_avg) by (apply Rdiv_lt_0_compat; assumption).
  rewrite Rlt_bool_false by lra. cbn [try_except].
  eexists; split; [reflexivity | apply sqrt_lt_R0, Hx].
Qed.

(** *** A concrete cooling transient: ambient -60, one pass per steady state *)

Lemma cooling_example_temperature :
  exists r : R,
    0 < r
    /\ forall I_ss : R,
        steady_state_conductor_temperature 1 I_ss 0.61 90 0 0.5 (-60) 0.01 0.0001 25
          0 90 30 false 2023 3 23 0 0 0.1 1
        = Ok (-60 + 5 - 0.1 * (-60 + 5) * (r - I_ss) / (0 - I_ss - (r - I_ss))).
Proof.
  destruct (convection_heat_loss_positive (-60 + 5) (-60) 0 0.01 90 0.61)
    as (q_c & Hq_c & Hpos); try (unfold temperature_boundary_layer; lra).
  destruct (steady_state_thermal_rating_positive q_c
              (radiated_heat_loss 0.01 0 (-60 + 5) (-60)) 0
              (conductor_electrical_resistance 0.0001 25 0 (-60 + 5)))
    as (r & Hr & Hr_pos).
  { unfold radiated_heat_loss. rewrite Rmult_0_r, Rmult_0_l. lra. }
  { unfold conductor_electrical_resistance. lra. }
  exists r. split; [exact Hr_pos |]. intros I_ss.
  assert (Hf : residual I_ss 0.61 90 0 (-60) 0.01 0.0001 25 0 0 0 (-60 + 5)
               = Ok (r - I_ss)).
  { unfold residual. rewrite Hq_c. cbn [bind]. rewrite Hr. reflexivity. }
  assert (Hf' : residual I_ss 0.61 90 0 (-60) 0.01 0.0001 25 0 0 0
                  ((-60 + 5) * (1 + 0.1)) = Ok (0 - I_ss)).
  { unfold residual.
    destruct (air_viscosity_positive
                (temperature_boundary_layer ((-60 + 5) * (1 + 0.1)) (-60)))
      as (mu_f & Hmu & Hmu_pos); [unfold temperature_boundary_layer; lra |].
    rewrite (convection_heat_loss_complex_branch _ _ _ _ _ _ mu_f)
      by (try assumption; unfold temperature_boundary_layer; lra).
    cbn [bind]. rewrite steady_state_thermal_rating_zero; [reflexivity | |].
    - unfold radiated_heat_loss. rewrite Rmult_0_r, Rmult_0_l. lra.
    - unfold conductor_electrical_resistance. lra. }
  rewrite (steady_state_conductor_temperature_single_pass 0 I_ss 0.61 90 0 0.5 (-60)
             0.01 0.0001 25 0 90 30 false 2023 3 23 0 0 0.1 1 0 (r - I_ss)
             (0 - I_ss) solar_heat_gain_equinox_midnight_clear ltac:(lia) Hf Hf').
  rewrite Req_bool_false by lra. reflexivity.
Qed.

Lemma cooling_example_order (r : R) :
  0 < r ->
  -60 + 5 - 0.1 * (-60 + 5) * (r - 500) / (0 - 500 - (r - 500))
  < -60 + 5 - 0.1 * (-60 + 5) * (r - 1000) / (0 - 1000 - (r - 1000)).
Proof.
  intros Hr.
  replace (0 - 500 - (r - 500)) with (- r) by lra.
  replace (0 - 1000 - (r - 1000)) with (- r) by lra.
  assert (Hu : 0 < / r) by (apply Rinv_0_lt_compat, Hr).
  assert (Hru : r * / r = 1) by (apply Rinv_r; lra).
  unfold Rdiv. rewrite Rinv_opp. set (u := / r) in *. nra.
Qed.

(** C5, as the code has it. When the final steady-state temperature is below
    the initial one, the guard [T <= T_f] fails on entry and
    [transient_settling_time] returns 0 without a single pass.  The loop has
    no iteration cap: when it is entered with a step [dT <= 0] it never
    returns a settling time. *)
Theorem transient_settling_time_guard (fuel : nat)
  (I_i I_f dT mC_p V_w phi epsilon alpha T_a D_o R_0 T_0 alpha_T Z_l lat : R)
  (industrial_atmosphere : bool) (year month day : Z) (hour H_e es : R) (imax : Z)
  (T_i T_f : R)
  (Hinitial :
     steady_state_conductor_temperature fuel I_i V_w phi epsilon alpha T_a D_o R_0
       T_0 alpha_T Z_l lat industrial_atmosphere year month day hour H_e es imax
     = Ok T_i)
  (Hfinal :
     steady_state_conductor_temperature fuel I_f V_w phi epsilon alpha T_a D_o R_0
       T_0 alpha_T Z_l lat industrial_atmosphere year month day hour H_e es imax
     = Ok T_f) :
  (T_f < T_i ->
   transient_settling_time fuel I_i I_f dT mC_p V_w phi epsilon alpha T_a D_o R_0
     T_0 alpha_T Z_l lat industrial_atmosphere year month day hour H_e es imax
   = Ok 0)
  /\ (T_i <= T_f -> dT <= 0 ->
      forall more t,
        transient_settling_time (fuel + more) I_i I_f dT mC_p V_w phi epsilon alpha
          T_a D_o R_0 T_0 alpha_T Z_l lat industrial_atmosphere year month day hour
          H_e es imax
        <> Ok t).
Proof.
  split.
  - apply (transient_settling_time_skips_loop _ _ _ _ _ _ _ _ _ _ _ _ _ _ _ _ _ _ _
             _ _ _ _ _ _ _ Hinitial Hfinal).
  - apply (transient_settling_time_no_return _ _ _ _ _ _ _ _ _ _ _ _ _ _ _ _ _ _ _
             _ _ _ _ _ _ _ Hinitial Hfinal).
Qed.

Lemma transient_settling_time_guard_witness :
  (exists T_i T_f : R,
      steady_state_conductor_temperature 1 1000 0.61 90 0 0.5 (-60) 0.01 0.0001 25 0
        90 30 false 2023 3 23 0 0 0.1 1 = Ok T_i
      /\ steady_state_conductor_temperature 1 500 0.61 90 0 0.5 (-60) 0.01 0.0001 25
           0 90 30 false 2023 3 23 0 0 0.1 1 = Ok T_f
      /\ T_f < T_i
      /\ transient_settling_time 1 1000 500 1 1 0.61 90 0 0.5 (-60) 0.01 0.0001 25 0
           90 30 false 2023 3 23 0 0 0.1 1 = Ok 0)
  /\ (forall more t,
         transient_settling_time (1 + more) 100 200 0 1 0.61 90 0.5 0.5 (-5) 0.01
           0.0001 25 0.00403 90 30 false 2023 3 23 0 0 0.1 1 <> Ok t).
Proof.
  split.
  - destruct cooling_example_temperature as (r & Hr & Hsolver).
    eexists; eexists.
    split; [apply Hsolver | split; [apply Hsolver | split]].
    + apply cooling_example_order, Hr.
    + apply (transient_settling_time_guard 1 1000 500 1 1 0.61 90 0 0.5 (-60) 0.01
               0.0001 25 0 90 30 false 2023 3 23 0 0 0.1 1 _ _
               (Hsolver 1000) (Hsolver 500)).
      apply cooling_example_order, Hr.
  - apply (transient_settling_time_guard 1 100 200 0 1 0.61 90 0.5 0.5 (-5) 0.01
             0.0001 25 0.00403 90 30 false 2023 3 23 0 0 0.1 1 (-5 + 5) (-5 + 5)
             (steady_state_conductor_temperature_frozen_start 100)
             (steady_state_conductor_temperature_frozen_start 200)); lra.
Defined.

(** C5 fails on a cooling transient: the final current is below the initial
    one, the final steady-state temperature is below the initial one, and the
    call returns 0 at once, whatever the budget. *)
Lemma transient_settling_time_cooling_returns_zero :
  exists T_i T_f : R,
    steady_state_conductor_temperature 1 1000 0.61 90 0 0.5 (-60) 0.01 0.0001 25 0
      90 30 false 2023 3 23 0 0 0.1 1 = Ok T_i
    /\ steady_state_conductor_temperature 1 500 0.61 90 0 0.5 (-60) 0.01 0.0001 25
         0 90 30 false 2023 3 23 0 0 0.1 1 = Ok T_f
    /\ T_f < T_i
    /\ forall more,
        transient_settling_time (1 + more) 1000 500 1 1 0.61 90 0 0.5 (-60) 0.01
          0.0001 25 0 90 30 false 2023 3 23 0 0 0.1 1 = Ok 0.
Proof.
  destruct cooling_example_temperature as (r & Hr & Hsolver).
  eexists; eexists.
  split; [apply Hsolver | split; [apply Hsolver | split]].
  - apply cooling_example_order, Hr.
  - intros more.
    apply (transient_settling_time_skips_loop (1 + more) 1000 500 1 1 0.61 90 0 0.5
             (-60) 0.01 0.0001 25 0 90 30 false 2023 3 23 0 0 0.1 1 _ _
             (steady_state_conductor_temperature_more_fuel 1 more _ _ _ _ _ _ _ _ _
                _ _ _ _ _ _ _ _ _ _ _ _ (Hsolver 1000))
             (steady_state_conductor_temperature_more_fuel 1 more _ _ _ _ _ _ _ _ _
                _ _ _ _ _ _ _ _ _ _ _ _ (Hsolver 500))).
    apply cooling_example_order, Hr.
Qed.

(** * Further properties of the sub-models and of the solvers *)

(** ** Radiated heat loss *)

(** X1. With a non-negative diameter and emissivity, the radiated loss is 0
    when the surface is at ambient temperature and does not decrease when the
    surface temperature rises, as long as the surface is not colder than
    -273. *)
Theorem radiated_heat_loss_monotone (D_o epsilon T_a T_1 T_2 : R)
  (Hdiameter : 0 <= D_o) (Hemissivity : 0 <= epsilon)
  (Hrange : -273 <= T_1 <= T_2) :
  radiated_heat_loss D_o epsilon T_a T_a = 0
  /\ radiated_heat_loss D_o epsilon T_1 T_a <= radiated_heat_loss D_o epsilon T_2 T_a.
Proof.
  unfold radiated_heat_loss. split.
  - replace (((T_a + 273) / 100) ^ 4 - ((T_a + 273) / 100) ^ 4) with 0 by ring.
    apply Rmult_0_r.
  - assert (Hpow : ((T_1 + 273) / 100) ^ 4 <= ((T_2 + 273) / 100) ^ 4)
      by (apply pow_incr; lra).
    assert (Hk : 0 <= 17.8 * D_o * epsilon).
    { apply Rmult_le_pos; [apply Rmult_le_pos; lra | exact Hemissivity]. }
    apply Rmult_le_compat_l; [exact Hk | lra].
Qed.

Lemma radiated_heat_loss_monotone_witness :
  radiated_heat_loss 0.01 0.5 40 40 = 0
  /\ radiated_heat_loss 0.01 0.5 60 40 <= radiated_heat_loss 0.01 0.5 100 40.
Proof.
  apply (radiated_heat_loss_monotone 0.01 0.5 40 60 100); lra.
Defined.

(** ** Wind direction factor *)

(** X2. The wind direction factor is positive for every wind angle: it
    stays between 0.09 and 2.756, so the forced convection never changes sign
    with the direction of the wind; a wind perpendicular to the conductor has
    factor 1. *)
Theorem wind_direction_factor_bounds (phi : R) :
  0.09 < wind_direction_factor phi <= 2.756
  /\ wind_direction_factor 90 = 1.
Proof.
  split; [apply wind_direction_factor_range | apply wind_direction_factor_perpendicular].
Qed.

(** ** Sun position *)

Lemma degrees_atan_bounds (x : R) : -90 < degrees (atan x) < 90.
Proof.
  pose proof (atan_bound x) as Hb. pose proof PI_RGT_0 as Hpi.
  unfold degrees.
  assert (H : atan x * 180 / PI = atan x * / PI * 180) by (field; lra).
  rewrite H. clear H.
  assert (Hi : 0 < / PI) by (apply Rinv_0_lt_compat; exact Hpi).
  assert (Hpi1 : PI * / PI = 1) by (apply Rinv_r; lra).
  split; nra.
Qed.

Lemma degrees_atan_sign (x : R) :
  (0 <= x -> 0 <= degrees (atan x)) /\ (x < 0 -> degrees (atan x) < 0).
Proof.
  pose proof PI_RGT_0 as Hpi.
  assert (Hi : 0 < / PI) by (apply Rinv_0_lt_compat; exact Hpi).
  unfold degrees. split; intros Hx.
  - assert (0 <= atan x).
    { destruct Hx as [Hx | <-]; [| rewrite atan_0; lra].
      left. rewrite <- atan_0. apply atan_increasing, Hx. }
    unfold Rdiv. apply Rmult_le_pos; [nra | lra].
  - assert (Ha : atan x < 0) by (rewrite <- atan_0; apply atan_increasing, Hx).
    unfold Rdiv.
    replace (atan x * 180 * / PI) with (- ((- atan x * 180) * / PI)) by ring.
    assert (0 < - atan x * 180 * / PI); [| lra].
    apply Rmult_lt_0_compat; [nra | exact Hi].
Qed.

(** X3. Whatever the hour angle and the azimuth variable, the sun azimuth
    built from [azimuth_constant] lies between 0 and 360 degrees: the first
    quadrant for constant 0, the last one for 360, the two middle ones for
    180. *)
Theorem azimuth_range (omega ji : R) :
  0 <= azimuth (azimuth_constant omega ji) ji <= 360.
Proof.
  pose proof (degrees_atan_bounds ji) as Hb.
  destruct (degrees_atan_sign ji) as [Hpos Hneg].
  unfold azimuth, azimuth_constant.
  destruct (Rle_bool_spec (-180) omega), (Rlt_bool_spec omega 0),
    (Rle_bool_spec 0 ji), (Rle_bool_spec 0 omega), (Rlt_bool_spec omega 180),
    (Rlt_bool_spec ji 0); cbn [andb];
    try (specialize (Hpos ltac:(lra))); try (specialize (Hneg ltac:(lra))); lra.
Qed.

(** X4. When [altitude_sun] returns, the altitude lies between 0 and 90
    degrees. *)
Theorem altitude_sun_range (lat delta omega H_c : R)
  (Hreturn : altitude_sun lat delta omega = Ok H_c) :
  0 <= H_c <= 90.
Proof.
  split; [exact (altitude_sun_nonneg _ _ _ _ Hreturn) |].
  revert Hreturn. unfold altitude_sun, math_asin.
  destruct (_ || _); cbn [bind]; [discriminate |].
  intros H. injection H as <-.
  set (x := cos (radians lat) * cos (radians delta) * cos (radians omega)
            + sin (radians lat) * sin (radians delta)).
  pose proof (asin_bound x) as Hb. pose proof PI_RGT_0 as Hpi.
  assert (Hd : degrees (asin x) <= 90).
  { unfold degrees.
    assert (Hi : 0 < / PI) by (apply Rinv_0_lt_compat; exact Hpi).
    assert (Hpi1 : PI * / PI = 1) by (apply Rinv_r; lra).
    replace (asin x * 180 / PI) with (asin x * / PI * 180) by (field; lra). nra. }
  destruct (Rlt_bool_spec (degrees (asin x)) 0); lra.
Qed.

Lemma altitude_sun_range_witness :
  altitude_sun 30 0 (-180) = Ok 0 /\ 0 <= 0 <= 90.
Proof.
  split; [exact altitude_sun_equinox_midnight |].
  apply (altitude_sun_range 30 0 (-180) 0). exact altitude_sun_equinox_midnight.
Defined.

(** X5. The solar declination stays within 23.46 degrees of the equator,
    whatever the day number, negative and beyond 365 included. *)
Theorem solar_declination_bounded (N : Z) :
  -23.46 <= solar_declination N <= 23.46.
Proof.
  unfold solar_declination.
  pose proof (SIN_bound (radians ((284 + IZR N) * 360 / 365))) as Hb. lra.
Qed.

(** ** Air properties and convection *)

(** X6. At every elevation, a film temperature above both -1/0.00367 and
    -273 gives a positive air density and a positive (real) air viscosity. *)
Theorem air_properties_positive (H_e T_film : R)
  (Hdensity : 0 < 1 + 0.00367 * T_film) (Hwarm : 0 < T_film + 273) :
  (exists rho_f, air_density H_e T_film = Ok rho_f /\ 0 < rho_f)
  /\ (exists mu_f, air_viscosity T_film = Ok (Flt mu_f) /\ 0 < mu_f).
Proof.
  split; [| exact (air_viscosity_positive T_film Hwarm)].
  rewrite air_density_defined by lra. eexists; split; [reflexivity |].
  apply Rdiv_lt_0_compat; [apply air_density_numerator_positive | exact Hdensity].
Qed.

Lemma air_properties_positive_witness :
  (exists rho_f, air_density 1500 70 = Ok rho_f /\ 0 < rho_f)
  /\ (exists mu_f, air_viscosity 70 = Ok (Flt mu_f) /\ 0 < mu_f).
Proof.
  apply (air_properties_positive 1500 70); lra.
Defined.








(** X9. Forced convection never raises.  A negative Reynolds number (a
    negative wind speed, say) makes both correlations complex and the handler
    answers 0; a positive one gives the larger of the two correlations. *)
Theorem forced_convection_heat_loss_cases (K_angle N_Re k_f T_s T_a : R) :
  (N_Re < 0 ->
   forced_convection_heat_loss K_angle (Flt N_Re) k_f T_s T_a = Ok 0)
  /\ (0 < N_Re ->
      forced_convection_heat_loss K_angle (Flt N_Re) k_f T_s T_a
      = Ok (Rmax (K_angle * (1.01 + 1.35 * Rpower N_Re 0.52) * k_f * (T_s - T_a))
                 (K_angle * 0.754 * Rpower N_Re 0.6 * k_f * (T_s - T_a))))
  /\ forall z : num,
      exists q_cf, forced_convection_heat_loss K_angle z k_f T_s T_a = Ok q_cf.
Proof.
  split; [| split].
  - intros Hneg. unfold forced_convection_heat_loss.
    rewrite !pow_frac_negative_base by exact Hneg. reflexivity.
  - intros Hpos. unfold forced_convection_heat_loss.
    rewrite !pow_frac_positive_base by exact Hpos.
    cbn [bind num_mul num_add]. rewrite py_max_floats. reflexivity.
  - intros z. apply forced_convection_total.
Qed.

(** ** Solar heat gain and the calendar *)

(** X10. A solar heat gain that is returned is never negative, and it is 0
    for a conductor with no absorptivity or no diameter. *)
Theorem solar_heat_gain_nonneg (year month day : Z) (hour H_e lat : R)
  (industrial_atmosphere : bool) (Z_l D_o alpha q_s : R)
  (Hreturn :
     solar_heat_gain year month day hour H_e lat industrial_atmosphere Z_l D_o alpha
     = Ok q_s) :
  0 <= q_s /\ (alpha = 0 \/ D_o = 0 -> q_s = 0).
Proof.
  revert Hreturn. unfold solar_heat_gain.
  destruct (new_datetime year month day) as [date | e |]; cbn [bind]; try discriminate.
  destruct (day_of_year date) as [N | e |]; cbn [bind]; try discriminate.
  destruct (altitude_sun _ _ _) as [H_c | e |]; cbn [bind]; try discriminate.
  destruct (azimuth_variable _ _ _) as [ji | e |]; cbn [bind]; try discriminate.
  destruct (solar_rays_incidence_angle _ _ _) as [theta | e |];
    cbn [bind]; try discriminate.
  intros H. injection H as <-.
  set (Q_se := total_heat_flux_intensity (elevation_correction_factor H_e)
                 (total_heat_flux_density H_c industrial_atmosphere)).
  set (s := sin (radians theta)).
  split.
  - destruct (Rlt_bool_spec (alpha * Q_se * s * D_o) 0); lra.
  - intros Hzero.
    assert (Hq : alpha * Q_se * s * D_o = 0) by (destruct Hzero as [-> | ->]; ring).
    rewrite Hq. destruct (Rlt_bool 0 0); reflexivity.
Qed.

Lemma solar_heat_gain_nonneg_witness :
  solar_heat_gain 2023 3 23 0 0 30 true 90 0.01 0.5 = Ok 0.2659105
  /\ 0 <= 0.2659105 /\ (0.5 = 0 \/ 0.01 = 0 -> 0.2659105 = 0).
Proof.
  assert (H : solar_heat_gain 2023 3 23 0 0 30 true 90 0.01 0.5 = Ok 0.2659105).
  { rewrite solar_heat_gain_equinox_midnight. cbv zeta.
    rewrite Rlt_bool_false by lra. f_equal. lra. }
  split; [exact H |].
  apply (solar_heat_gain_nonneg 2023 3 23 0 0 30 true 90 0.01 0.5 0.2659105 H).
Defined.

(** X11. A date that is not in the calendar makes [solar_heat_gain] raise
    [ValueError], and with it the temperature solver and both transient
    functions, before any iteration is made. *)
Theorem invalid_date_raises (fuel : nat)
  (I_i I_f step horizon mC_p V_w phi epsilon alpha T_a D_o R_0 T_0 alpha_T Z_l lat : R)
  (industrial_atmosphere : bool) (year month day : Z) (hour H_e es : R) (imax : Z)
  (Hinvalid : valid_date year month day = false) :
  solar_heat_gain year month day hour H_e lat industrial_atmosphere Z_l D_o alpha
  = Raise ValueError
  /\ steady_state_conductor_temperature fuel I_i V_w phi epsilon alpha T_a D_o R_0
       T_0 alpha_T Z_l lat industrial_atmosphere year month day hour H_e es imax
     = Raise ValueError
  /\ (forall float_div : R -> R -> R,
         transient_conductor_temperature float_div fuel I_i I_f step horizon mC_p V_w
           phi epsilon alpha T_a D_o R_0 T_0 alpha_T Z_l lat industrial_atmosphere
           year month day hour H_e es imax
         = Raise ValueError)
  /\ transient_settling_time fuel I_i I_f step mC_p V_w phi epsilon alpha T_a D_o
       R_0 T_0 alpha_T Z_l lat industrial_atmosphere year month day hour H_e es imax
     = Raise ValueError.
Proof.
  assert (Hsolar : solar_heat_gain year month day hour H_e lat industrial_atmosphere
                     Z_l D_o alpha = Raise ValueError).
  { unfold solar_heat_gain, new_datetime. rewrite Hinvalid. reflexivity. }
  assert (Hsolver : forall I_ss,
             steady_state_conductor_temperature fuel I_ss V_w phi epsilon alpha T_a
               D_o R_0 T_0 alpha_T Z_l lat industrial_atmosphere year month day hour
               H_e es imax = Raise ValueError).
  { intros I_ss. unfold steady_state_conductor_temperature. rewrite Hsolar.
    reflexivity. }
  split; [exact Hsolar | split; [apply Hsolver | split]].
  - intros float_div. unfold transient_conductor_temperature. rewrite Hsolver.
    reflexivity.
  - unfold transient_settling_time. rewrite Hsolver. reflexivity.
Qed.

Lemma invalid_date_raises_witness :
  solar_heat_gain 2023 2 29 12 0 30 false 90 0.01 0.5 = Raise ValueError
  /\ steady_state_conductor_temperature 50 1000 0.61 90 0.5 0.5 40 0.01 0.0001 25
       0.00403 90 30 false 2023 2 29 12 0 0.1 50
     = Raise ValueError
  /\ (forall float_div : R -> R -> R,
         transient_conductor_temperature float_div 50 1000 1200 1 60 1000 0.61 90 0.5
           0.5 40 0.01 0.0001 25 0.00403 90 30 false 2023 2 29 12 0 0.1 50
         = Raise ValueError)
  /\ transient_settling_time 50 1000 1200 1 1000 0.61 90 0.5 0.5 40 0.01 0.0001 25
       0.00403 90 30 false 2023 2 29 12 0 0.1 50
     = Raise ValueError.
Proof.
  apply (invalid_date_raises 50 1000 1200 1 60 1000 0.61 90 0.5 0.5 40 0.01 0.0001
           25 0.00403 90 30 false 2023 2 29 12 0 0.1 50).
  reflexivity.
Defined.

Open Scope Z_scope.

Lemma days_before_month_bound (y m d : Z) :
  1 <= m <= 12 -> 1 <= d <= days_in_month y m ->
  1 <= days_before_month y m + d <= (if is_leap y then 366 else 365).
Proof.
  intros Hm.
  assert (Hcases : m = 1 \/ m = 2 \/ m = 3 \/ m = 4 \/ m = 5 \/ m = 6 \/ m = 7
                   \/ m = 8 \/ m = 9 \/ m = 10 \/ m = 11 \/ m = 12) by lia.
  unfold days_before_month, days_in_month.
  repeat (destruct Hcases as [-> | Hcases]); try subst m;
    destruct (is_leap y); cbn -[Z.add]; intros Hd; lia.
Qed.

(** X12. For a valid date the day number lies between 0 and 364, or 365 in a
    leap year, and December 31 reaches that upper bound. *)
Theorem day_of_year_range (year month day : Z)
  (Hvalid : valid_date year month day = true) :
  exists N,
    day_of_year (mk_datetime year month day) = Ok N
    /\ 0 <= N <= (if is_leap year then 365 else 364)
    /\ day_of_year (mk_datetime year 12 31)
       = Ok (if is_leap year then 365 else 364).
Proof.
  destruct (valid_date_inv _ _ _ Hvalid) as (Hy & Hm & Hd).
  exists (conventional_day_number year month day - 1).
  split; [apply day_of_year_valid, Hvalid | split].
  - rewrite conventional_day_number_table by exact Hm.
    pose proof (days_before_month_bound year month day Hm Hd).
    destruct (is_leap year); lia.
  - rewrite day_of_year_valid.
    + rewrite conventional_day_number_table by lia.
      unfold days_before_month. destruct (is_leap year); reflexivity.
    + unfold valid_date. rewrite !andb_true_iff, !Z.leb_le.
      unfold days_in_month. cbn. lia.
Qed.

Lemma day_of_year_range_witness :
  exists N,
    day_of_year (mk_datetime 2024 2 29) = Ok N
    /\ 0 <= N <= (if is_leap 2024 then 365 else 364)
    /\ day_of_year (mk_datetime 2024 12 31)
       = Ok (if is_leap 2024 then 365 else 364).
Proof.
  apply (day_of_year_range 2024 2 29). reflexivity.
Defined.

Open Scope R_scope.

(** ** Heat balance: temperature increment, time increment and rating *)



(** Over the reals the current answered by the rating balances the heat
    equation exactly; this gives the steady state of the example below. *)
Lemma steady_state_thermal_rating_balance (q_c q_r q_s R_T_avg : R) :
  R_T_avg <> 0 -> 0 <= (q_c + q_r - q_s) / R_T_avg ->
  exists I,
    steady_state_thermal_rating q_c q_r q_s R_T_avg = Ok I
    /\ 0 <= I
    /\ R_T_avg * I ^ 2 + q_s - q_c - q_r = 0.
Proof.
  intros HR Hrad. unfold steady_state_thermal_rating, py_div.
  rewrite Req_bool_false by exact HR. cbn [bind math_sqrt].
  rewrite Rlt_bool_false by lra. cbn [try_except].
  eexists; split; [reflexivity | split; [apply sqrt_pos |]].
  rewrite pow2_sqrt by exact Hrad. field. exact HR.
Qed.

(** X15. [ss_thermal_rating] raises exactly what [convection_heat_loss] or,
    after it, [solar_heat_gain] raises; when both return it returns a
    current, and a returned current is never negative. *)
Theorem ss_thermal_rating_outcomes
  (V_w phi epsilon alpha T_a T_max D_o R_0 T_0 alpha_T Z_l lat : R)
  (industrial_atmosphere : bool) (year month day : Z) (hour H_e : R) :
  match convection_heat_loss T_max T_a H_e D_o phi V_w,
        solar_heat_gain year month day hour H_e lat industrial_atmosphere Z_l D_o
          alpha with
  | Ok q_c, Ok q_s =>
      exists I,
        ss_thermal_rating V_w phi epsilon alpha T_a T_max D_o R_0 T_0 alpha_T Z_l
          lat industrial_atmosphere year month day hour H_e = Ok I
        /\ 0 <= I
        /\ steady_state_thermal_rating q_c
             (radiated_heat_loss D_o epsilon T_max T_a) q_s
             (conductor_electrical_resistance R_0 T_0 alpha_T T_max) = Ok I
  | Ok _, other =>
      ss_thermal_rating V_w phi epsilon alpha T_a T_max D_o R_0 T_0 alpha_T Z_l lat
        industrial_atmosphere year month day hour H_e = other
  | Raise e, _ =>
      ss_thermal_rating V_w phi epsilon alpha T_a T_max D_o R_0 T_0 alpha_T Z_l lat
        industrial_atmosphere year month day hour H_e = Raise e
  | OutOfFuel, _ => False
  end.
Proof.
  unfold ss_thermal_rating.
  pose proof (finishes_convection_heat_loss T_max T_a H_e D_o phi V_w) as Hfin.
  destruct (convection_heat_loss T_max T_a H_e D_o phi V_w) as [q_c | e |];
    cbn [bind]; [| reflexivity | apply Hfin; reflexivity].
  destruct (solar_heat_gain _ _ _ _ _ _ _ _ _ _) as [q_s | e |];
    cbn [bind]; try reflexivity.
  destruct (steady_state_thermal_rating_total q_c
              (radiated_heat_loss D_o epsilon T_max T_a) q_s
              (conductor_electrical_resistance R_0 T_0 alpha_T T_max)) as [I HI].
  exists I. split; [exact HI | split; [| exact HI]].
  revert HI. unfold steady_state_thermal_rating, py_div, math_sqrt.
  destruct (Req_bool _ 0); cbn [bind try_except].
  - intros H. injection H as <-. lra.
  - destruct (Rlt_bool _ 0); cbn [try_except]; intros H; injection H as <-;
      [lra | apply sqrt_pos].
Qed.

(** ** Conductor heat capacity: lists of different lengths *)

Lemma products_added_to_app (m_1 C_1 m_2 C_2 : list float) :
  length m_1 = length C_1 ->
  forall acc : float,
    products_added_to acc (m_1 ++ m_2) (C_1 ++ C_2)
    = products_added_to (products_added_to acc m_1 C_1) m_2 C_2.
Proof.
  revert C_1. induction m_1 as [| m m_1 IH]; intros [| C C_1] Hlen acc;
    try discriminate; [reflexivity |].
  cbn [app products_added_to]. apply IH. cbn in Hlen. lia.
Qed.

Lemma products_added_to_nil_r (m_i : list float) (acc : float) :
  products_added_to acc m_i [] = acc.
Proof. destruct m_i; reflexivity. Qed.

(** X16. [zip] stops at the shorter list: layers without a partner are
    ignored without an error, and an empty list gives 0.  The layers of a
    second group are added, one product after the other, onto the capacity
    of the first group. *)
Theorem conductor_heat_capacity_zip (m_1 C_1 m_2 C_2 : list float)
  (Hlen : length m_1 = length C_1) :
  conductor_heat_capacity (m_1 ++ m_2) C_1 = conductor_heat_capacity m_1 C_1
  /\ conductor_heat_capacity m_1 (C_1 ++ C_2) = conductor_heat_capacity m_1 C_1
  /\ conductor_heat_capacity [] C_2 = 0%float
  /\ conductor_heat_capacity m_2 [] = 0%float
  /\ conductor_heat_capacity (m_1 ++ m_2) (C_1 ++ C_2)
     = products_added_to (conductor_heat_capacity m_1 C_1) m_2 C_2.
Proof.
  rewrite !heat_capacity_products.
  pose proof (products_added_to_app m_1 C_1 m_2 [] Hlen 0%float) as H1.
  pose proof (products_added_to_app m_1 C_1 [] C_2 Hlen 0%float) as H2.
  rewrite app_nil_r, products_added_to_nil_r in H1.
  rewrite app_nil_r in H2. cbn [products_added_to] in H2.
  repeat split.
  - exact H1.
  - exact H2.
  - apply products_added_to_nil_r.
  - apply products_added_to_app, Hlen.
Qed.

Lemma conductor_heat_capacity_zip_witness :
  conductor_heat_capacity ([1; 2] ++ [7])%float [3; 4]%float
  = conductor_heat_capacity [1; 2]%float [3; 4]%float
  /\ conductor_heat_capacity [1; 2]%float ([3; 4] ++ [9; 9])%float
     = conductor_heat_capacity [1; 2]%float [3; 4]%float
  /\ conductor_heat_capacity [] [9; 9]%float = 0%float
  /\ conductor_heat_capacity [7]%float [] = 0%float
  /\ conductor_heat_capacity ([1; 2] ++ [7])%float ([3; 4] ++ [9; 9])%float
     = products_added_to (conductor_heat_capacity [1; 2]%float [3; 4]%float)
         [7]%float [9; 9]%float.
Proof.
  apply (conductor_heat_capacity_zip [1; 2] [3; 4] [7] [9; 9])%float. reflexivity.
Defined.

(** ** The settling-time loop with a positive step *)





(** ** Passes of the secant iteration that do not move the trial *)

Section SecantStationary.

Variables I_ss V_w phi epsilon alpha T_a D_o R_0 T_0 alpha_T Z_l lat : R.
Variable industrial_atmosphere : bool.
Variables year month day : Z.
Variables hour H_e es : R.
Variable imax : Z.
Variable q_s : R.

Local Abbreviation body :=
  (secant_body I_ss V_w phi epsilon T_a D_o R_0 T_0 alpha_T H_e q_s).
Local Abbreviation loop fuel :=
  (secant_loop fuel I_ss V_w phi epsilon T_a D_o R_0 T_0 alpha_T H_e q_s es imax).
Local Abbreviation solver fuel :=
  (steady_state_conductor_temperature fuel I_ss V_w phi epsilon alpha T_a D_o R_0
     T_0 alpha_T Z_l lat industrial_atmosphere year month day hour H_e es imax).
Local Abbreviation solar :=
  (solar_heat_gain year month day hour H_e lat industrial_atmosphere Z_l D_o alpha).
Local Abbreviation residual_at :=
  (residual I_ss V_w phi epsilon T_a D_o R_0 T_0 alpha_T H_e q_s).
Local Abbreviation passes :=
  (secant_passes I_ss V_w phi epsilon T_a D_o R_0 T_0 alpha_T H_e q_s).

Lemma secant_body_stationary (st : secant_state) (f f' : R) :
  residual_at (st_T_i st) = Ok f ->
  residual_at (st_T_i st * (1 + 0.1)) = Ok f' ->
  f = 0 \/ f' = f \/ st_T_i st = 0 ->
  exists st',
    body st = Ok st'
    /\ st_T_i st' = st_T_i st
    /\ st_i st' = (st_i st + 1)%Z
    /\ (st_T_i st <> 0 -> st_ea st' = 0)
    /\ (st_T_i st = 0 -> st_ea st' = st_ea st).
Proof.
  intros Hf Hf' Hcase.
  destruct (secant_body_defined _ _ _ _ _ _ _ _ _ _ _ st f f' Hf Hf') as [st' Hbody].
  destruct (secant_body_inv _ _ _ _ _ _ _ _ _ _ _ st st' Hbody)
    as (g & g' & Hg & Hg' & HT & Hea & Hi).
  rewrite Hf in Hg. rewrite Hf' in Hg'. injection Hg as <-. injection Hg' as <-.
  assert (Hsame : st_T_i st' = st_T_i st).
  { rewrite HT. destruct (Req_bool_spec (f' - f) 0) as [_ | Hd]; [reflexivity |].
    destruct Hcase as [-> | [-> | ->]]; [| lra |]; unfold Rdiv; ring. }
  exists st'. split; [exact Hbody | split; [exact Hsame | split; [exact Hi |]]].
  rewrite Hea, Hsame. split; intros H0.
  - rewrite Req_bool_false by exact H0.
    rewrite Rminus_diag. unfold Rdiv. rewrite Rmult_0_l, Rabs_R0. ring.
  - rewrite Req_bool_true by exact H0. reflexivity.
Qed.

(** X18. A pass leaves the trial temperature where it is when the residual
    at the trial is 0 (a root), when the two residuals are equal (a flat
    residual), or when the trial is 0; the relative change then becomes 0,
    or keeps its value when the trial is 0. *)
Theorem secant_pass_stationary (st : secant_state) (f f' : R)
  (Hf : residual_at (st_T_i st) = Ok f)
  (Hf' : residual_at (st_T_i st * (1 + 0.1)) = Ok f')
  (Hcase : f = 0 \/ f' = f \/ st_T_i st = 0) :
  exists st',
    body st = Ok st'
    /\ st_T_i st' = st_T_i st
    /\ st_i st' = (st_i st + 1)%Z
    /\ (st_T_i st <> 0 -> st_ea st' = 0)
    /\ (st_T_i st = 0 -> st_ea st' = st_ea st).
Proof. exact (secant_body_stationary st f f' Hf Hf' Hcase). Qed.

Lemma secant_seed_returned (fuel : nat) (f f' : R) :
  solar = Ok q_s ->
  residual_at (T_a + 5) = Ok f ->
  residual_at ((T_a + 5) * (1 + 0.1)) = Ok f' ->
  f = 0 \/ f' = f ->
  T_a + 5 <> 0 -> 0 <= es ->
  solver (S fuel) = Ok (T_a + 5).
Proof.
  intros Hsolar Hf Hf' Hcase Hseed Hes.
  unfold steady_state_conductor_temperature. rewrite Hsolar. cbn [bind secant_loop].
  destruct (secant_body_stationary (secant_init T_a) f f' Hf Hf')
    as (st' & Hbody & HT & _ & Hea & _); [tauto |].
  rewrite Hbody. cbn [bind]. unfold secant_exit.
  cbn [secant_init st_T_i] in *.
  rewrite (Hea Hseed), Rle_bool_true by exact Hes. cbn [orb]. rewrite HT. reflexivity.
Qed.

(** X19. When the first pass does not move the trial (a root or a flat
    residual at [T_a + 5], with [T_a + 5 <> 0]), the relative change is 0 and
    for every tolerance [es >= 0] and every iteration cap the solver returns
    the seed [T_a + 5] after that single pass. *)
Theorem secant_returns_seed (fuel : nat) (f f' : R)
  (Hsolar : solar = Ok q_s)
  (Hf : residual_at (T_a + 5) = Ok f)
  (Hf' : residual_at ((T_a + 5) * (1 + 0.1)) = Ok f')
  (Hcase : f = 0 \/ f' = f)
  (Hseed : T_a + 5 <> 0) (Htolerance : 0 <= es) :
  steady_state_conductor_temperature (S fuel) I_ss V_w phi epsilon alpha T_a D_o
    R_0 T_0 alpha_T Z_l lat industrial_atmosphere year month day hour H_e es imax
  = Ok (T_a + 5).
Proof. exact (secant_seed_returned fuel f f' Hsolar Hf Hf' Hcase Hseed Htolerance). Qed.

(** A trial of 0 is kept by every pass: only the counter moves. *)
Lemma secant_passes_zero_trial (f : R) (n : nat) :
  forall st : secant_state,
    st_T_i st = 0 ->
    residual_at 0 = Ok f ->
    passes n st = Ok (mk_secant_state (st_T_i st) (st_ea st) (st_i st + Z.of_nat n)).
Proof.
  induction n as [| n IH]; intros st H0 Hf.
  - cbn [secant_passes]. destruct st as [T e i]. cbn. f_equal. f_equal. lia.
  - cbn [secant_passes].
    destruct (secant_body_stationary st f f) as (st' & Hbody & HT & Hi & _ & Hea).
    + rewrite H0. exact Hf.
    + rewrite H0, Rmult_0_l. exact Hf.
    + tauto.
    + rewrite Hbody. cbn [bind]. rewrite IH by (try assumption; lra).
      rewrite HT, (Hea H0), Hi. f_equal. f_equal. lia.
Qed.

End SecantStationary.

(** X20. At an ambient temperature of -5 the seed is 0, the perturbed trial
    is 0 as well, and no pass ever moves it: for every current, tolerance and
    iteration cap of at least 1 the solver returns 0. *)
Theorem secant_stuck_at_zero (fuel : nat)
  (I_ss V_w phi epsilon alpha D_o R_0 T_0 alpha_T Z_l lat : R)
  (industrial_atmosphere : bool) (year month day : Z) (hour H_e es : R) (imax : Z)
  (q_s : R)
  (Hsolar : solar_heat_gain year month day hour H_e lat industrial_atmosphere Z_l
              D_o alpha = Ok q_s)
  (Himax : (1 <= imax)%Z) (Hfuel : (Z.to_nat imax <= fuel)%nat) :
  steady_state_conductor_temperature fuel I_ss V_w phi epsilon alpha (-5) D_o R_0 T_0
    alpha_T Z_l lat industrial_atmosphere year month day hour H_e es imax
  = Ok 0.
Proof.
  destruct (residual_defined I_ss V_w phi epsilon (-5) D_o R_0 T_0 alpha_T H_e q_s 0)
    as [f Hf]; try (unfold temperature_boundary_layer; lra).
  pose proof (fun n =>
    secant_passes_zero_trial I_ss V_w phi epsilon (-5) D_o R_0 T_0 alpha_T H_e q_s
      f n (secant_init (-5)) ltac:(cbn; lra) Hf) as Hpasses.
  destruct (secant_loop_runs I_ss V_w phi epsilon (-5) D_o R_0 T_0 alpha_T H_e es
              imax q_s fuel (secant_init (-5))) as (n & _ & _ & Hfinal).
  - lia.
  - cbn [secant_init st_i]. rewrite Z.sub_0_r. exact Hfuel.
  - rewrite Hpasses in Hfinal. destruct Hfinal as (_ & _ & Hloop).
    unfold steady_state_conductor_temperature. rewrite Hsolar. cbn [bind].
    rewrite Hloop. cbn [secant_init st_T_i]. f_equal. lra.
Qed.

Lemma secant_stuck_at_zero_witness :
  steady_state_conductor_temperature 50 1000 0.61 90 0.5 0.5 (-5) 0.01 0.0001 25
    0.00403 90 30 false 2023 3 23 0 0 0.1 50
  = Ok 0.
Proof.
  apply (secant_stuck_at_zero 50 1000 0.61 90 0.5 0.5 0.01 0.0001 25 0.00403 90 30
           false 2023 3 23 0 0 0.1 50 0).
  - exact solar_heat_gain_equinox_midnight_clear.
  - lia.
  - vm_compute. lia.
Defined.

(** *** A flat residual: a conductor with zero base resistance *)

Lemma residual_zero_resistance
  (I_ss V_w phi epsilon T_a D_o T_0 alpha_T H_e q_s T : R) :
  1 + 0.00367 * temperature_boundary_layer T T_a <> 0 ->
  temperature_boundary_layer T T_a + 273 <> 0 ->
  temperature_boundary_layer T T_a + 383.4 <> 0 ->
  residual I_ss V_w phi epsilon T_a D_o 0 T_0 alpha_T H_e q_s T = Ok (0 - I_ss).
Proof.
  intros Hd Hz Hv. unfold residual.
  destruct (convection_heat_loss_defined T T_a H_e D_o phi V_w Hd Hz Hv) as [q_c ->].
  cbn [bind].
  unfold steady_state_thermal_rating, conductor_electrical_resistance, py_div.
  rewrite Req_bool_true by ring. reflexivity.
Qed.

Lemma secant_pass_stationary_witness :
  exists st',
    secant_body 1000 0.61 90 0.5 40 0.01 0 25 0.00403 0 0 (secant_init 40) = Ok st'
    /\ st_T_i st' = st_T_i (secant_init 40)
    /\ st_i st' = (st_i (secant_init 40) + 1)%Z
    /\ (st_T_i (secant_init 40) <> 0 -> st_ea st' = 0)
    /\ (st_T_i (secant_init 40) = 0 -> st_ea st' = st_ea (secant_init 40)).
Proof.
  apply (secant_pass_stationary 1000 0.61 90 0.5 40 0.01 0 25 0.00403 0 0
           (secant_init 40) (0 - 1000) (0 - 1000)).
  - apply residual_zero_resistance;
      cbn [secant_init st_T_i]; unfold temperature_boundary_layer; lra.
  - apply residual_zero_resistance;
      cbn [secant_init st_T_i]; unfold temperature_boundary_layer; lra.
  - right. left. reflexivity.
Defined.

Lemma secant_returns_seed_witness :
  steady_state_conductor_temperature 1 1000 0.61 90 0.5 0.5 40 0.01 0 25 0.00403 90
    30 false 2023 3 23 0 0 0.1 50
  = Ok (40 + 5).
Proof.
  apply (secant_returns_seed 1000 0.61 90 0.5 0.5 40 0.01 0 25 0.00403 90 30 false
           2023 3 23 0 0 0.1 50 0 0 (0 - 1000) (0 - 1000)).
  - exact solar_heat_gain_equinox_midnight_clear.
  - apply residual_zero_resistance; unfold temperature_boundary_layer; lra.
  - apply residual_zero_resistance; unfold temperature_boundary_layer; lra.
  - right. reflexivity.
  - lra.
  - lra.
Defined.

(** X21. An iteration cap of 1 or less (0 and negative caps included) still
    makes one full pass: the solver returns the first secant update of the
    seed [T_a + 5]. *)
Theorem secant_cap_below_one (fuel : nat)
  (I_ss V_w phi epsilon alpha T_a D_o R_0 T_0 alpha_T Z_l lat : R)
  (industrial_atmosphere : bool) (year month day : Z) (hour H_e es : R) (imax : Z)
  (q_s f f' : R)
  (Hsolar : solar_heat_gain year month day hour H_e lat industrial_atmosphere Z_l
              D_o alpha = Ok q_s)
  (Hcap : (imax <= 1)%Z)
  (Hf : residual I_ss V_w phi epsilon T_a D_o R_0 T_0 alpha_T H_e q_s (T_a + 5)
        = Ok f)
  (Hf' : residual I_ss V_w phi epsilon T_a D_o R_0 T_0 alpha_T H_e q_s
           ((T_a + 5) * (1 + 0.1)) = Ok f') :
  steady_state_conductor_temperature (S fuel) I_ss V_w phi epsilon alpha T_a D_o R_0
    T_0 alpha_T Z_l lat industrial_atmosphere year month day hour H_e es imax
  = Ok (if Req_bool (f' - f) 0 then T_a + 5
        else T_a + 5 - (0.1 * (T_a + 5) * f) / (f' - f)).
Proof.
  exact (steady_state_conductor_temperature_single_pass fuel I_ss V_w phi epsilon
           alpha T_a D_o R_0 T_0 alpha_T Z_l lat industrial_atmosphere year month day
           hour H_e es imax q_s f f' Hsolar Hcap Hf Hf').
Qed.

Lemma secant_cap_below_one_witness :
  exists r : R,
    0 < r
    /\ steady_state_conductor_temperature 1 1000 0.61 90 0 0.5 (-60) 0.01 0.0001 25
         0 90 30 false 2023 3 23 0 0 0.1 (-3)
       = Ok (if Req_bool (0 - 1000 - (r - 1000)) 0 then -60 + 5
             else -60 + 5 - 0.1 * (-60 + 5) * (r - 1000) / (0 - 1000 - (r - 1000))).
Proof.
  destruct (convection_heat_loss_positive (-60 + 5) (-60) 0 0.01 90 0.61)
    as (q_c & Hq_c & Hpos); try (unfold temperature_boundary_layer; lra).
  destruct (steady_state_thermal_rating_positive q_c
              (radiated_heat_loss 0.01 0 (-60 + 5) (-60)) 0
              (conductor_electrical_resistance 0.0001 25 0 (-60 + 5)))
    as (r & Hr & Hr_pos).
  { unfold radiated_heat_loss. rewrite Rmult_0_r, Rmult_0_l. lra. }
  { unfold conductor_electrical_resistance. lra. }
  exists r. split; [exact Hr_pos |].
  apply (secant_cap_below_one 0 1000 0.61 90 0 0.5 (-60) 0.01 0.0001 25 0 90 30 false
           2023 3 23 0 0 0.1 (-3) 0 (r - 1000) (0 - 1000)).
  - exact solar_heat_gain_equinox_midnight_clear.
  - lia.
  - unfold residual. rewrite Hq_c. cbn [bind]. rewrite Hr. reflexivity.
  - unfold residual.
    destruct (air_viscosity_positive
                (temperature_boundary_layer ((-60 + 5) * (1 + 0.1)) (-60)))
      as (mu_f & Hmu & Hmu_pos); [unfold temperature_boundary_layer; lra |].
    rewrite (convection_heat_loss_complex_branch _ _ _ _ _ _ mu_f)
      by (try assumption; unfold temperature_boundary_layer; lra).
    cbn [bind]. rewrite steady_state_thermal_rating_zero; [reflexivity | |].
    + unfold radiated_heat_loss. rewrite Rmult_0_r, Rmult_0_l. lra.
    + unfold conductor_electrical_resistance. lra.
Defined.

(** ** The trajectory: short horizons and the steady state *)

Lemma int_trunc_below_one (q : R) : q < 1 -> (int_trunc q <= 0)%Z.
Proof.
  intros Hq. unfold int_trunc.
  destruct (Rle_bool_spec 0 q) as [Hpos | Hneg].
  - rewrite <- (Int_part_spec q 0); [lia | lra].
  - destruct (base_Int_part (- q)) as [_ Hb].
    assert (H : (-1 < Int_part (- q))%Z) by (apply lt_IZR; lra). lia.
Qed.

(** X22. Once the initial steady state is found, a zero time step makes
    [transient_conductor_temperature] raise [ZeroDivisionError]; a horizon
    shorter than one step, that is a float quotient [time / dt] below 1 (a
    negative one included), returns the initial temperature alone. *)
Theorem transient_conductor_temperature_short_horizon (float_div : R -> R -> R)
  (fuel : nat)
  (I_i I_f dt time mC_p V_w phi epsilon alpha T_a D_o R_0 T_0 alpha_T Z_l lat : R)
  (industrial_atmosphere : bool) (year month day : Z) (hour H_e es : R) (imax : Z)
  (T_i : R)
  (Hinitial :
     steady_state_conductor_temperature fuel I_i V_w phi epsilon alpha T_a D_o R_0
       T_0 alpha_T Z_l lat industrial_atmosphere year month day hour H_e es imax
     = Ok T_i) :
  (dt = 0 ->
   transient_conductor_temperature float_div fuel I_i I_f dt time mC_p V_w phi epsilon
     alpha T_a D_o R_0 T_0 alpha_T Z_l lat industrial_atmosphere year month day hour
     H_e es imax = Raise ZeroDivisionError)
  /\ (dt <> 0 -> float_div time dt < 1 ->
      transient_conductor_temperature float_div fuel I_i I_f dt time mC_p V_w phi
        epsilon alpha T_a D_o R_0 T_0 alpha_T Z_l lat industrial_atmosphere year month
        day hour H_e es imax = Ok [T_i]).
Proof.
  destruct (steady_state_conductor_temperature_solar _ _ _ _ _ _ _ _ _ _ _ _ _ _ _ _
              _ _ _ _ _ _ Hinitial) as [q_s Hsolar].
  unfold transient_conductor_temperature. rewrite Hinitial, Hsolar. cbn [bind].
  unfold py_float_div. split.
  - intros ->. rewrite Req_bool_true by reflexivity. reflexivity.
  - intros Hdt Hshort. rewrite Req_bool_false by exact Hdt. cbn [bind].
    pose proof (int_trunc_below_one _ Hshort) as Hn.
    replace (Z.to_nat (int_trunc (float_div time dt))) with 0%nat by lia. reflexivity.
Qed.

Lemma transient_conductor_temperature_short_horizon_witness :
  (1 = 0 ->
   transient_conductor_temperature Rdiv 1 100 200 1 (-10) 1 0.61 90 0.5 0.5 (-5) 0.01
     0.0001 25 0.00403 90 30 false 2023 3 23 0 0 0.1 1 = Raise ZeroDivisionError)
  /\ (1 <> 0 -> -10 / 1 < 1 ->
      transient_conductor_temperature Rdiv 1 100 200 1 (-10) 1 0.61 90 0.5 0.5 (-5)
        0.01 0.0001 25 0.00403 90 30 false 2023 3 23 0 0 0.1 1 = Ok [-5 + 5]).
Proof.
  apply (transient_conductor_temperature_short_horizon Rdiv 1 100 200 1 (-10) 1 0.61
           90 0.5 0.5 (-5) 0.01 0.0001 25 0.00403 90 30 false 2023 3 23 0 0 0.1 1
           (-5 + 5)).
  exact (steady_state_conductor_temperature_frozen_start 100).
Defined.

Lemma euler_loop_constant (n : nat)
  (I_f dt mC_p V_w phi epsilon T_a D_o R_0 T_0 alpha_T H_e q_s x q_c : R) :
  convection_heat_loss x T_a H_e D_o phi V_w = Ok q_c ->
  conductor_electrical_resistance R_0 T_0 alpha_T x * I_f ^ 2 + q_s - q_c
  - radiated_heat_loss D_o epsilon x T_a = 0 ->
  mC_p <> 0 ->
  forall T0 : list R,
    list_last T0 = Ok x ->
    euler_loop I_f mC_p V_w phi epsilon T_a D_o R_0 T_0 alpha_T H_e q_s
      (repeat dt n) T0
    = Ok (T0 ++ repeat x n).
Proof.
  intros Hq Hbalance Hcapacity.
  induction n as [| n IH]; intros T0 Hlast.
  - cbn. rewrite app_nil_r. reflexivity.
  - cbn [repeat euler_loop]. rewrite Hlast. cbn [bind]. rewrite Hq. cbn [bind].
    unfold delta_T, py_div. rewrite Req_bool_false by exact Hcapacity. cbn [bind].
    rewrite Hbalance.
    replace (x + 0 / mC_p * dt) with x by (unfold Rdiv; ring).
    rewrite IH by apply list_last_snoc.
    rewrite <- app_assoc. reflexivity.
Qed.

(** X23. A steady state is a fixed point of the Euler integrator: when the
    heat balance [R(T_i) * I_f^2 + q_s = q_c(T_i) + q_r(T_i)] holds at the
    initial temperature, every sample of the trajectory is that
    temperature; their number is the truncated float quotient [time / dt]
    plus one. *)
Theorem transient_conductor_temperature_steady (float_div : R -> R -> R)
  (fuel : nat)
  (I_i I_f dt time mC_p V_w phi epsilon alpha T_a D_o R_0 T_0 alpha_T Z_l lat : R)
  (industrial_atmosphere : bool) (year month day : Z) (hour H_e es : R) (imax : Z)
  (T_i q_s q_c : R)
  (Hinitial :
     steady_state_conductor_temperature fuel I_i V_w phi epsilon alpha T_a D_o R_0
       T_0 alpha_T Z_l lat industrial_atmosphere year month day hour H_e es imax
     = Ok T_i)
  (Hsolar : solar_heat_gain year month day hour H_e lat industrial_atmosphere Z_l
              D_o alpha = Ok q_s)
  (Hconvection : convection_heat_loss T_i T_a H_e D_o phi V_w = Ok q_c)
  (Hbalance :
     conductor_electrical_resistance R_0 T_0 alpha_T T_i * I_f ^ 2 + q_s - q_c
     - radiated_heat_loss D_o epsilon T_i T_a = 0)
  (Hcapacity : mC_p <> 0) (Hstep : dt <> 0) :
  transient_conductor_temperature float_div fuel I_i I_f dt time mC_p V_w phi epsilon
    alpha T_a D_o R_0 T_0 alpha_T Z_l lat industrial_atmosphere year month day hour
    H_e es imax
  = Ok (repeat T_i (S (Z.to_nat (int_trunc (float_div time dt))))).
Proof.
  unfold transient_conductor_temperature. rewrite Hinitial, Hsolar. cbn [bind].
  unfold py_float_div. rewrite Req_bool_false by exact Hstep. cbn [bind].
  rewrite (euler_loop_constant _ _ _ _ _ _ _ _ _ _ _ _ _ _ T_i q_c Hconvection
             Hbalance Hcapacity) by reflexivity.
  reflexivity.
Qed.

Lemma transient_conductor_temperature_steady_witness :
  exists I_f : R,
    0 <= I_f
    /\ transient_conductor_temperature Rdiv 1 100 I_f 1 3 1000 0.61 90 0.5 0.5 (-5)
         0.01 0.0001 25 0.00403 90 30 false 2023 3 23 0 0 0.1 1
       = Ok (repeat (-5 + 5) (S (Z.to_nat (int_trunc (3 / 1))))).
Proof.
  destruct (convection_heat_loss_positive (-5 + 5) (-5) 0 0.01 90 0.61)
    as (q_c & Hq_c & Hpos); try (unfold temperature_boundary_layer; lra).
  assert (Hq_r : 0 <= radiated_heat_loss 0.01 0.5 (-5 + 5) (-5)).
  { unfold radiated_heat_loss.
    assert (H : ((-5 + 273) / 100) ^ 4 <= ((-5 + 5 + 273) / 100) ^ 4)
      by (apply pow_incr; lra).
    nra. }
  assert (HR : 0 < conductor_electrical_resistance 0.0001 25 0.00403 (-5 + 5))
    by (unfold conductor_electrical_resistance; lra).
  destruct (steady_state_thermal_rating_balance q_c
              (radiated_heat_loss 0.01 0.5 (-5 + 5) (-5)) 0
              (conductor_electrical_resistance 0.0001 25 0.00403 (-5 + 5)))
    as (I_f & _ & HI_pos & Hbal).
  { lra. }
  { unfold Rdiv. apply Rmult_le_pos; [lra | left; apply Rinv_0_lt_compat, HR]. }
  exists I_f. split; [exact HI_pos |].
  apply (transient_conductor_temperature_steady Rdiv 1 100 I_f 1 3 1000 0.61 90 0.5
           0.5 (-5) 0.01 0.0001 25 0.00403 90 30 false 2023 3 23 0 0 0.1 1 (-5 + 5) 0
           q_c).
  - exact (steady_state_conductor_temperature_frozen_start 100).
  - exact solar_heat_gain_equinox_midnight_clear.
  - exact Hq_c.
  - exact Hbal.
  - lra.
  - lra.
Defined.

(** ** More on the solar geometry and on the rating *)

(** X24. When [solar_rays_incidence_angle] returns, the angle lies between 0
    and 180 degrees, so its sine, the factor of the solar gain, is not
    negative. *)
Theorem solar_rays_incidence_angle_range (H_c Z_c Z_l theta : R)
  (Hreturn : solar_rays_incidence_angle H_c Z_c Z_l = Ok theta) :
  0 <= theta <= 180 /\ 0 <= sin (radians theta).
Proof.
  split; [| exact (sin_incidence_nonneg _ _ _ _ Hreturn)].
  revert Hreturn. unfold solar_rays_incidence_angle, math_acos.
  destruct (_ || _); cbn [bind]; [discriminate |].
  intros H. injection H as <-.
  set (x := cos (radians H_c) * cos (radians (Z_c - Z_l))).
  pose proof (acos_bound x) as Hb. pose proof PI_RGT_0 as Hpi.
  assert (Hi : 0 < / PI) by (apply Rinv_0_lt_compat; exact Hpi).
  assert (Hpi1 : PI * / PI = 1) by (apply Rinv_r; lra).
  unfold degrees.
  replace (acos x * 180 / PI) with (acos x * / PI * 180) by (field; lra).
  split; nra.
Qed.

Lemma solar_rays_incidence_angle_range_witness :
  solar_rays_incidence_angle 0 0 90 = Ok 90
  /\ 0 <= 90 <= 180 /\ 0 <= sin (radians 90).
Proof.
  split; [exact incidence_angle_east_west |].
  apply (solar_rays_incidence_angle_range 0 0 90 90). exact incidence_angle_east_west.
Defined.

(** X25. From sea level up to 10361 m the elevation correction factor is at
    least 1 (exactly 1 at sea level), so the corrected flux is not below a
    non-negative flux density. *)
Theorem elevation_correction_factor_at_least_one (H_e Q_s : R)
  (Helevation : 0 <= H_e <= 10361) (Hflux : 0 <= Q_s) :
  1 <= elevation_correction_factor H_e
  /\ elevation_correction_factor 0 = 1
  /\ Q_s <= total_heat_flux_intensity (elevation_correction_factor H_e) Q_s.
Proof.
  assert (HK : 1 <= elevation_correction_factor H_e).
  { unfold elevation_correction_factor. cbn -[pow]. nra. }
  split; [exact HK | split; [exact elevation_correction_factor_sea_level |]].
  unfold total_heat_flux_intensity. nra.
Qed.

Lemma elevation_correction_factor_at_least_one_witness :
  1 <= elevation_correction_factor 1500
  /\ elevation_correction_factor 0 = 1
  /\ 1000 <= total_heat_flux_intensity (elevation_correction_factor 1500) 1000.
Proof.
  apply (elevation_correction_factor_at_least_one 1500 1000); lra.
Defined.

Lemma steady_state_thermal_rating_value (q_c q_r q_s R_T_avg : R) :
  0 < R_T_avg ->
  steady_state_thermal_rating q_c q_r q_s R_T_avg
  = Ok (if Rlt_bool ((q_c + q_r - q_s) / R_T_avg) 0 then 0
        else sqrt ((q_c + q_r - q_s) / R_T_avg)).
Proof.
  intros HR. unfold steady_state_thermal_rating, py_div, math_sqrt.
  rewrite Req_bool_false by lra. cbn [bind].
  destruct (Rlt_bool _ 0); reflexivity.
Qed.

(** X26. For a positive resistance the rating does not decrease when the
    convective or the radiative loss grows or when the solar gain shrinks. *)
Theorem steady_state_thermal_rating_monotone (q_c q_r q_s q_c' q_r' q_s' R_T_avg : R)
  (Hresistance : 0 < R_T_avg)
  (Hconvection : q_c <= q_c') (Hradiation : q_r <= q_r') (Hsolar : q_s' <= q_s) :
  exists I I',
    steady_state_thermal_rating q_c q_r q_s R_T_avg = Ok I
    /\ steady_state_thermal_rating q_c' q_r' q_s' R_T_avg = Ok I'
    /\ I <= I'.
Proof.
  rewrite !steady_state_thermal_rating_value by exact Hresistance.
  do 2 eexists. split; [reflexivity | split; [reflexivity |]].
  assert (Hi : 0 < / R_T_avg) by (apply Rinv_0_lt_compat, Hresistance).
  assert (Hle : (q_c + q_r - q_s) / R_T_avg <= (q_c' + q_r' - q_s') / R_T_avg)
    by (unfold Rdiv; apply Rmult_le_compat_r; lra).
  destruct (Rlt_bool_spec ((q_c + q_r - q_s) / R_T_avg) 0),
    (Rlt_bool_spec ((q_c' + q_r' - q_s') / R_T_avg) 0).
  - lra.
  - apply sqrt_pos.
  - lra.
  - apply sqrt_le_1_alt, Hle.
Qed.

Lemma steady_state_thermal_rating_monotone_witness :
  exists I I',
    steady_state_thermal_rating 50 20 10 0.0001 = Ok I
    /\ steady_state_thermal_rating 60 25 5 0.0001 = Ok I'
    /\ I <= I'.
Proof.
  apply (steady_state_thermal_rating_monotone 50 20 10 60 25 5 0.0001); lra.
Defined.
